(** * AI News Orchestrator: the event-extraction-and-merge pipeline

    A shallow embedding of the Streamlit application of this repository
    ([src/app_selenium_3.py], [src/app.py] and the archived
    [src/archive/app_selenium_2.py]) and the properties of its chunker, its
    model-call wrappers, its search handler and its derived operations.

    Python values are modelled as follows.
    - A [str] is a list of Unicode code points ([N]); [py "..."] writes an
      ASCII literal.
    - An [int] is a [Z]; a length is a [nat].
    - An exception is a value of [PyExc]; a function that may raise returns a
      [result].
    - A dictionary with a fixed set of keys (an article, the metadata of an
      article, [st.session_state]) is a record; a key that may be absent
      is an [option] field.
    - The feed, the browser, the page extractor and the language model are
      a [World] of outcomes; the script runs in a state monad over the
      session, the page and the calls it makes. *)

From Stdlib Require Import ZArith NArith String Ascii DecimalString Lia.
From stdpp Require Import list.

Open Scope Z_scope.

(* ===================================================================== *)
(** * Python strings *)
(* ===================================================================== *)

Abbreviation str := (list N).

(** An ASCII literal as a Python string. *)
Fixpoint py (s : string) : str :=
  match s with
  | EmptyString => []
  | String a s' => N_of_ascii a :: py s'
  end.

(** The newline character. *)
Definition nl : str := [10%N].

(** A block of lines, each one ended by a newline. *)
Definition unlines (ls : list str) : str := concat (map (fun l => l ++ nl) ls).

(** [str(n)] for a non-negative integer. *)
Definition str_of_nat (n : nat) : str :=
  py (DecimalString.NilZero.string_of_uint (Nat.to_uint n)).

(** CPython's [Py_UNICODE_ISSPACE]: the characters that [str.split()],
    [str.strip()] and the regular expression class [\s] treat as
    whitespace. *)
Definition isspace (c : N) : bool :=
  (((9 <=? c) && (c <=? 13)) || ((28 <=? c) && (c <=? 32))
   || (c =? 133) || (c =? 160) || (c =? 5760)
   || ((8192 <=? c) && (c <=? 8202))
   || (c =? 8232) || (c =? 8233) || (c =? 8239) || (c =? 8287)
   || (c =? 12288))%N.

(** The character class [[.?!]]. *)
Definition is_end (c : N) : bool := ((c =? 46) || (c =? 63) || (c =? 33))%N.

(** [c] becomes the first character of the first element of [ws]. *)
Definition push_char (c : N) (ws : list str) : list str :=
  match ws with
  | w :: ws' => (c :: w) :: ws'
  | [] => [[c]]
  end.

Definition starts_with_space (s : str) : bool :=
  match s with
  | c :: _ => isspace c
  | [] => false
  end.

(** [s.split()]: the maximal runs of non-whitespace characters, in order. *)
Fixpoint split (s : str) : list str :=
  match s with
  | [] => []
  | c :: s' =>
      if isspace c then split s'
      else match s' with
           | [] => [[c]]
           | c' :: _ => if isspace c' then [c] :: split s'
                        else push_char c (split s')
           end
  end.

(** [s.lstrip()], [s.rstrip()] and [s.strip()]. *)
Fixpoint lstrip (s : str) : str :=
  match s with
  | [] => []
  | c :: s' => if isspace c then lstrip s' else s
  end.

Fixpoint rstrip (s : str) : str :=
  match s with
  | [] => []
  | c :: s' =>
      match rstrip s' with
      | [] => if isspace c then [] else [c]
      | r => c :: r
      end
  end.

Definition strip (s : str) : str := rstrip (lstrip s).

(** [sep.join(l)]. *)
Fixpoint join (sep : str) (l : list str) : str :=
  match l with
  | [] => []
  | [w] => w
  | w :: l' => w ++ sep ++ join sep l'
  end.

(** [s.replace(a, b)] for single characters [a] and [b]. *)
Definition replace_char (a b : N) (s : str) : str :=
  map (fun c => if (c =? a)%N then b else c) s.

(** [re.split(r'(?<=[.?!])\s+', s)]: the text is cut at every maximal run of
    whitespace that follows one of [. ? !]; the run is dropped.  [in_sep]
    says that the scan is inside such a run. *)
Fixpoint re_split_from (in_sep : bool) (s : str) : list str :=
  match s with
  | [] => [[]]
  | c :: s' =>
      if in_sep && isspace c then re_split_from true s'
      else if is_end c && starts_with_space s' then [c] :: re_split_from true s'
      else push_char c (re_split_from false s')
  end.

Definition re_split_sentences (s : str) : list str := re_split_from false s.

(** Truth value of a string: non-empty. *)
Definition truthy (s : str) : bool :=
  match s with
  | [] => false
  | _ => true
  end.

(** A word: non-empty, without whitespace. *)
Definition is_word (w : str) : Prop :=
  w <> [] /\ Forall (fun c => isspace c = false) w.

(** The number of words of a string, [len(s.split())]. *)
Definition word_count (s : str) : Z := Z.of_nat (length (split s)).

(** The word sequence of a sequence of chunks: the chunks one after the
    other, each read as its words. *)
Definition words_of_chunks (chunks : list str) : list str :=
  concat (map split chunks).

(** A chunk that is one whole sentence of the text, with more words than
    the bound. *)
Definition single_oversized_sentence (text : str) (max_words : Z) (c : str) : Prop :=
  exists s, In s (re_split_sentences text) /\ c = strip s /\ max_words < word_count s.

(** The first element of [re.split(...)], which is never an empty list. *)
Definition first_sentence (text : str) : str := hd [] (re_split_sentences text).

(* ===================================================================== *)
(** * Exceptions and results *)
(* ===================================================================== *)

(** A raised exception with its class name and its [str(e)]:
    [AnException] for an instance of [Exception], [ABaseException] for an
    instance of a class that derives from [BaseException] only
    ([KeyboardInterrupt], [SystemExit], [GeneratorExit]).  Python's
    [except Exception] catches the former; a bare [except:] catches
    both. *)
Inductive PyExc : Type :=
  | AnException (cls : str) (msg : str)
  | ABaseException (cls : str) (msg : str).

Definition exc_str (e : PyExc) : str :=
  match e with
  | AnException _ m => m
  | ABaseException _ m => m
  end.

Inductive result (A : Type) : Type :=
  | Ok (a : A)
  | Raise (e : PyExc).
Arguments Ok {A} a.
Arguments Raise {A} e.

Definition ValueError (msg : string) : PyExc := AnException (py "ValueError") (py msg).
Definition KeyError (key : string) : PyExc := AnException (py "KeyError") (py key).

(** [range(0, stop, step)] as a list.  A zero step raises; a negative step
    from 0 to a length gives the empty range; [range_up] counts
    [i, i + step, ...] below [stop], and [stop] rounds are enough for a
    step of at least one. *)
Fixpoint range_up (fuel : nat) (i stop step : nat) : list nat :=
  match fuel with
  | O => []
  | S fuel' =>
      if (i <? stop)%nat then i :: range_up fuel' (i + step) stop step else []
  end.

Definition range (stop : nat) (step : Z) : result (list nat) :=
  if step =? 0 then Raise (ValueError "range() arg 3 must not be zero")
  else if step <? 0 then Ok []
  else Ok (range_up stop 0 stop (Z.to_nat step)).

(** [l[i:i+n]] for [0 <= i] and [0 < n]. *)
Definition slice (l : list str) (i : nat) (n : Z) : list str :=
  take (Z.to_nat n) (drop i l).

(* ===================================================================== *)
(** * The chunkers *)
(* ===================================================================== *)

(** [chunk_text] of [src/app_selenium_3.py] and [src/app.py]: consecutive
    windows of [max_words] words. *)
Module FixedWindow.

Definition chunk_text (text : str) (max_words : Z) : result (list str) :=
  let words := split text in
  match range (length words) max_words with
  | Raise e => Raise e
  | Ok idx => Ok (map (fun i => join (py " ") (slice words i max_words)) idx)
  end.

End FixedWindow.

(** [chunk_text] of [src/archive/app_selenium_2.py]: whole sentences are
    accumulated while the glued text [current + s] has fewer than
    [max_words] words. *)
Module SentenceAware.

Definition step (max_words : Z) (acc : list str * str) (s : str)
  : list str * str :=
  let '(chunks, current) := acc in
  if word_count (current ++ s) <? max_words
  then (chunks, current ++ py " " ++ s)
  else (chunks ++ [strip current], s).

Definition loop (max_words : Z) (sentences : list str) (acc : list str * str)
  : list str * str :=
  fold_left (step max_words) sentences acc.

Definition chunk_text (text : str) (max_words : Z) : list str :=
  let sentences := re_split_sentences text in
  let '(chunks, current) := loop max_words sentences ([], []) in
  if truthy (strip current) then chunks ++ [strip current] else chunks.

End SentenceAware.

(* ===================================================================== *)
(** * The world outside the program *)
(* ===================================================================== *)

(** An entry of the Google News feed, as [feedparser] delivers it; the
    [published] date and the [source] title may be missing.  The [link]
    and the [title] are taken to be there: the script reads them as
    attributes, which raises [AttributeError] for an item without them. *)
Record Entry : Type := mkEntry {
  entry_link : str;
  entry_title : str;
  entry_published : option str;
  entry_source_title : option str
}.

(** What happens in the browser session that [resolve_real_url] starts for
    a URL: each step either succeeds or raises. *)
Record BrowserRun : Type := mkBrowserRun {
  install : option PyExc;      (* Service(ChromeDriverManager().install()) *)
  launch : option PyExc;       (* webdriver.Chrome(service=..., options=...) *)
  get : option PyExc;          (* driver.get(google_url); time.sleep(1.2) *)
  current_url : result str;    (* driver.current_url *)
  quit : option PyExc          (* driver.quit() *)
}.

(** The outcome of a call of the language model: the completion, or a
    failure, that is an exception of class [cls] with [str(e) = msg].  The
    failures of the call (API, network and quota errors) are instances of
    [Exception]. *)
Inductive ModelOutcome : Type :=
  | Completion (output_text : str)
  | Failure (cls : str) (msg : str).

Record World : Type := mkWorld {
  (* feedparser.parse(rss_url).entries *)
  feed : str -> list Entry;
  (* the browser session started for a URL *)
  browser : str -> BrowserRun;
  (* trafilatura.fetch_url(url): the page, None, or an exception *)
  fetch_url : str -> result (option str);
  (* trafilatura.extract(downloaded): the text, None, or an exception *)
  extract : str -> result (option str);
  (* client.responses.create(model=..., input=...).output_text for the
     n-th call of the run *)
  responses_create : nat -> str -> str -> ModelOutcome
}.

(** An element of [articles_data]; [credibility] is set by [src/app.py]
    only. *)
Record Article : Type := mkArticle {
  title : str;
  publisher : str;
  published : str;
  url : str;
  content : str;
  credibility : option str
}.

(** The [metadata] dictionary handed to the extractor. *)
Record Metadata : Type := mkMetadata {
  md_title : str;
  md_publisher : str;
  md_published : str;
  md_url : str
}.

(** [st.session_state]: the five keys the program uses, each absent or
    present. *)
Record Session : Type := mkSession {
  timeline : option str;
  articles_data : option (list Article);
  translated_timeline : option str;
  highlights : option str;
  comparison : option str
}.

Definition empty_session : Session := mkSession None None None None None.

(** What the page shows, in order. *)
Inductive UIEvent : Type :=
  | UITitle (s : str)
  | UIWrite (s : str)
  | UIError (s : str)
  | UISuccess (s : str)
  | UIWarning (s : str)
  | UIInfo (s : str)
  | UISubheader (s : str)
  | UISpinner (s : str)
  | UIDownload (label data file_name : str).

(** The state of one run of the script: the session, the page, the model
    calls made so far as pairs (model, input), and the URLs for which a
    browser session was started. *)
Record St : Type := mkSt {
  session : Session;
  ui : list UIEvent;
  calls : list (str * str);
  visited : list str
}.

(** How a piece of the script ends: normally, by [st.stop()], or by an
    exception that nothing caught. *)
Inductive outcome (A : Type) : Type :=
  | Done (a : A)
  | Stopped
  | Raised (e : PyExc).
Arguments Done {A} a.
Arguments Stopped {A}.
Arguments Raised {A} e.

Definition Run (A : Type) : Type := St -> outcome A * St.

Definition ret {A} (a : A) : Run A := fun s => (Done a, s).

Definition bind {A B} (m : Run A) (k : A -> Run B) : Run B :=
  fun s =>
    match m s with
    | (Done a, s') => k a s'
    | (Stopped, s') => (Stopped, s')
    | (Raised e, s') => (Raised e, s')
    end.

Declare Scope run_scope.
Delimit Scope run_scope with run.
Notation "x <- m ;; k" := (bind m (fun x => k))
  (at level 100, m at next level, right associativity) : run_scope.
Notation "m ;;; k" := (bind m (fun _ => k))
  (at level 100, right associativity) : run_scope.
Open Scope run_scope.

Definition raise {A} (e : PyExc) : Run A := fun s => (Raised e, s).

Definition st_stop {A} : Run A := fun s => (Stopped, s).

Definition lift {A} (r : result A) : Run A :=
  match r with
  | Ok a => ret a
  | Raise e => raise e
  end.

(** [try: body  except <catches> as e: handler e]. *)
Definition try_except {A} (body : Run A) (catches : PyExc -> bool)
    (handler : PyExc -> Run A) : Run A :=
  fun s =>
    match body s with
    | (Raised e, s') => if catches e then handler e s' else (Raised e, s')
    | r => r
    end.

(** [except Exception]. *)
Definition is_Exception (e : PyExc) : bool :=
  match e with
  | AnException _ _ => true
  | ABaseException _ _ => false
  end.

Definition show (e : UIEvent) : Run unit :=
  fun s => (Done tt, mkSt (session s) (ui s ++ [e]) (calls s) (visited s)).

Definition get_session : Run Session := fun s => (Done (session s), s).

Definition set_session (f : Session -> Session) : Run unit :=
  fun s => (Done tt, mkSt (f (session s)) (ui s) (calls s) (visited s)).

(** [st.session_state[key]]: a missing key raises [KeyError]. *)
Definition session_item {A} (key : string) (field : Session -> option A) : Run A :=
  ss <- get_session ;;
  match field ss with
  | Some v => ret v
  | None => raise (KeyError key)
  end.

Definition set_timeline (v : str) (ss : Session) : Session :=
  mkSession (Some v) (articles_data ss) (translated_timeline ss) (highlights ss) (comparison ss).
Definition set_articles_data (v : list Article) (ss : Session) : Session :=
  mkSession (timeline ss) (Some v) (translated_timeline ss) (highlights ss) (comparison ss).
Definition set_translated_timeline (v : str) (ss : Session) : Session :=
  mkSession (timeline ss) (articles_data ss) (Some v) (highlights ss) (comparison ss).
Definition set_highlights (v : str) (ss : Session) : Session :=
  mkSession (timeline ss) (articles_data ss) (translated_timeline ss) (Some v) (comparison ss).
Definition set_comparison (v : str) (ss : Session) : Session :=
  mkSession (timeline ss) (articles_data ss) (translated_timeline ss) (highlights ss) (Some v).

(** [st.session_state.get(key)] used as a condition. *)
Definition get_truthy (v : option str) : option str :=
  match v with
  | Some s => if truthy s then Some s else None
  | None => None
  end.

(* ===================================================================== *)
(** * The program *)
(* ===================================================================== *)

(** The two current variants of the application; they differ in the wording
    of the merge prompt. *)
Inductive Variant : Type :=
  | AppSelenium3    (* src/app_selenium_3.py *)
  | App.            (* src/app.py *)

(** The marker that [ask_gpt] puts in front of a failure reason. *)
Definition gpt_error_marker : str := py "[GPT Error] ".

Definition extraction_prompt (chunk : str) (metadata : Metadata) : str :=
  nl ++ unlines [
    py "Extract factual events from the article chunk.";
    py "";
    py "### Metadata";
    py "Title: " ++ md_title metadata;
    py "Publisher: " ++ md_publisher metadata;
    py "Published: " ++ md_published metadata;
    py "URL: " ++ md_url metadata;
    py "";
    py "### Chunk:";
    chunk;
    py "";
    py "### Output:";
    py "- [time or date if known] Event description (source: "
      ++ md_publisher metadata ++ py ")" ].

Definition merge_prompt (v : Variant) (events_list : str) : str :=
  nl ++ unlines ([
    py "The following events came from multiple articles about the same incident.";
    py "";
    py "Your tasks:";
    py "1. Merge them";
    py "2. Remove duplicates";
    py "3. Resolve conflicts using published dates" ]
    ++ match v with
       | AppSelenium3 => [ py "4. Arrange them in chronological order";
                           py "5. Output a clean timeline" ]
       | App => [ py "4. Arrange in chronological order" ]
       end
    ++ [ py "";
         py "### EVENTS:";
         events_list ]).

Definition translate_prompt (timeline target_lang : str) : str :=
  nl ++ unlines [
    py "Translate the following timeline into **" ++ target_lang ++ py "**.";
    py "";
    py "### TIMELINE:";
    timeline ].

Definition highlights_prompt (timeline : str) : str :=
  nl ++ unlines [
    py "Extract the **5 most important key events** from the following timeline.";
    py "";
    py "### TIMELINE:";
    timeline;
    py "";
    py "### Output:";
    py "## " ++ [128273%N] ++ py " Key Highlights";
    py "- Bullet points summarizing the most critical events" ].

(** One block of [formatted] in [compare_sources]. *)
Definition compare_block (a : Article) : str :=
  let content := if truthy (content a) then take 1500 (content a) else py "" in
  nl ++ unlines [
    py "### Source: " ++ publisher a;
    py "Title: " ++ title a;
    py "Content:";
    content ].

Definition compare_prompt (articles : list Article) : str :=
  let formatted := fold_left (fun acc a => acc ++ compare_block a) articles (py "") in
  nl ++ unlines [
    py "Compare the following news sources and highlight:";
    py "";
    py "- Where the articles agree";
    py "- Where they disagree";
    py "- Unique details in each source";
    py "- Contradictions or vague claims";
    py "";
    py "### ARTICLES:";
    formatted;
    py "";
    py "### Output:";
    py "## " ++ [127386%N] ++ py " Differences Between Sources";
    py "- AGREEMENTS:";
    py "- DISAGREEMENTS:";
    py "- UNIQUE POINTS:" ].

Section Program.

Variable w : World.

(** [search_google_news(query)] with the default region and language. *)
Definition search_google_news (query : str) : list Entry :=
  let query := replace_char 32 43 query in
  let rss_url := py "https://news.google.com/rss/search?q=" ++ query
                 ++ py "&hl=en-IN&gl=IN&ceid=IN:en" in
  feed w rss_url.

(** [resolve_real_url(google_url)].  The driver is created before the
    [try]; the bare [except] covers [driver.get], the sleep and the read of
    [driver.current_url]; [driver.quit()] runs in the [finally] clause, and
    an exception it raises replaces the pending return value. *)
Definition resolve_real_url (google_url : str) : result str :=
  let b := browser w google_url in
  match install b with
  | Some e => Raise e
  | None =>
      match launch b with
      | Some e => Raise e
      | None =>
          let tried :=
            match get b with
            | Some _ => google_url
            | None =>
                match current_url b with
                | Ok u => u
                | Raise _ => google_url
                end
            end in
          match quit b with
          | Some e => Raise e
          | None => Ok tried
          end
      end
  end.

(** A call of [resolve_real_url] in the script: the visit is recorded. *)
Definition call_resolve_real_url (google_url : str) : Run str :=
  fun s =>
    let s' := mkSt (session s) (ui s) (calls s) (visited s ++ [google_url]) in
    match resolve_real_url google_url with
    | Ok real_url => (Done real_url, s')
    | Raise e => (Raised e, s')
    end.

(** [extract_text(url)]: everything is inside a [try] with a bare
    [except] that returns [None]. *)
Definition extract_text (url : str) : option str :=
  match fetch_url w url with
  | Raise _ => None
  | Ok None => None
  | Ok (Some downloaded) =>
      if truthy downloaded then
        match extract w downloaded with
        | Raise _ => None
        | Ok text => text
        end
      else None
  end.

(** [client.responses.create(model=model, input=prompt).output_text]: the
    call is recorded, and its outcome is the world's for this call. *)
Definition client_responses_create (model prompt : str) : Run str :=
  fun s =>
    let s' := mkSt (session s) (ui s) (calls s ++ [(model, prompt)]) (visited s) in
    match responses_create w (length (calls s)) model prompt with
    | Completion output_text => (Done output_text, s')
    | Failure cls msg => (Raised (AnException cls msg), s')
    end.

(** [ask_gpt(prompt, model)]. *)
Definition ask_gpt (prompt model : str) : Run str :=
  try_except
    (client_responses_create model prompt)
    is_Exception
    (fun e => ret (gpt_error_marker ++ exc_str e)).

Definition extract_events_from_chunk (chunk : str) (metadata : Metadata) : Run str :=
  ask_gpt (extraction_prompt chunk metadata) (py "gpt-4.1-mini").

Definition merge_events_to_timeline (v : Variant) (events_list : str) : Run str :=
  ask_gpt (merge_prompt v events_list) (py "gpt-4.1").

Definition translate_timeline (timeline target_lang : str) : Run str :=
  ask_gpt (translate_prompt timeline target_lang) (py "gpt-4.1-mini").

Definition extract_key_highlights (timeline : str) : Run str :=
  ask_gpt (highlights_prompt timeline) (py "gpt-4.1-mini").

Definition compare_sources (articles : list Article) : Run str :=
  ask_gpt (compare_prompt articles) (py "gpt-4.1").

(** The article loop of the search handler,
    [for idx, entry in enumerate(entries[:10])], from index [idx] on. *)
Fixpoint fetch_articles (idx : nat) (entries : list Entry)
    (articles_data : list Article) : Run (list Article) :=
  match entries with
  | [] => ret articles_data
  | entry :: rest =>
      show (UIWrite (py "### Article " ++ str_of_nat (idx + 1))) ;;;
      let google_url := entry_link entry in
      let title := entry_title entry in
      let published := default (py "Unknown") (entry_published entry) in
      let publisher := default (py "Unknown") (entry_source_title entry) in
      show (UIWrite (py "Resolving article URL...")) ;;;
      real_url <- call_resolve_real_url google_url ;;
      show (UIWrite real_url) ;;;
      show (UIWrite (py "Extracting text...")) ;;;
      match extract_text real_url with
      | None =>
          show (UIWarning (py "Could not extract content.")) ;;;
          fetch_articles (S idx) rest articles_data
      | Some text =>
          let article := mkArticle title publisher published real_url text None in
          show (UISuccess (py "Content extracted.")) ;;;
          fetch_articles (S idx) rest (articles_data ++ [article])
      end
  end.

(** [for chunk in chunks: all_events.append(extract_events_from_chunk(...))]. *)
Fixpoint extract_chunks (chunks : list str) (metadata : Metadata)
    (all_events : list str) : Run (list str) :=
  match chunks with
  | [] => ret all_events
  | chunk :: rest =>
      events <- extract_events_from_chunk chunk metadata ;;
      extract_chunks rest metadata (all_events ++ [events])
  end.

Definition metadata_of (article : Article) : Metadata :=
  mkMetadata (title article) (publisher article) (published article) (url article).

(** [for article in articles_data: ...], with [chunk_text] at its default
    bound of 300 words. *)
Fixpoint extract_articles (articles : list Article) (all_events : list str)
    : Run (list str) :=
  match articles with
  | [] => ret all_events
  | article :: rest =>
      chunks <- lift (FixedWindow.chunk_text (content article) 300) ;;
      all_events' <- extract_chunks chunks (metadata_of article) all_events ;;
      extract_articles rest all_events'
  end.

(** The end of the search handler, the same in both variants: the events
    of all articles, the merge, the session and the page. *)
Definition extract_and_merge (v : Variant) (articles : list Article) : Run unit :=
  show (UISubheader ([9203%N] ++ py " Extracting events from all articles...")) ;;;
  all_events <- extract_articles articles [] ;;
  timeline <- merge_events_to_timeline v (join nl all_events) ;;
  set_session (set_timeline timeline) ;;;
  set_session (set_articles_data articles) ;;;
  set_session (set_translated_timeline (py "")) ;;;
  set_session (set_highlights (py "")) ;;;
  set_session (set_comparison (py "")) ;;;
  show (UISuccess (py "Timeline generated!")) ;;;
  show (UIWrite (py "## " ++ [129517%N] ++ py " Final Chronological Timeline")) ;;;
  show (UIWrite timeline) ;;;
  show (UIWrite (py "---")).

(** The widgets of one run of the script of [src/app_selenium_3.py]. *)
Record Inputs : Type := mkInputs {
  query_input : str;
  search_btn : bool;
  target_lang_input : str;
  translate_btn : bool;
  highlights_btn : bool;
  compare_btn : bool
}.

(** [if st.button("Search"): ...] of [src/app_selenium_3.py]. *)
Definition search_handler (query : str) : Run unit :=
  (if truthy (strip query) then ret tt
   else show (UIError (py "Please enter a search term.")) ;;; st_stop) ;;;
  show (UISpinner (py "Fetching Google News results...")) ;;;
  let entries := search_google_news query in
  show (UISuccess (py "Found " ++ str_of_nat (length entries) ++ py " articles.")) ;;;
  articles <- fetch_articles 0 (take 10 entries) [] ;;
  extract_and_merge AppSelenium3 articles.

Definition translate_handler (target_lang : str) : Run unit :=
  show (UISpinner (py "Translating...")) ;;;
  timeline <- session_item "timeline" timeline ;;
  result <- translate_timeline timeline target_lang ;;
  set_session (set_translated_timeline result) ;;;
  show (UISuccess (py "Translation complete!")).

Definition highlights_handler : Run unit :=
  show (UISpinner (py "Extracting highlights...")) ;;;
  timeline <- session_item "timeline" timeline ;;
  result <- extract_key_highlights timeline ;;
  set_session (set_highlights result) ;;;
  show (UISuccess (py "Highlights extracted!")).

Definition compare_handler : Run unit :=
  show (UISpinner (py "Comparing articles...")) ;;;
  articles <- session_item "articles_data" articles_data ;;
  result <- compare_sources articles ;;
  set_session (set_comparison result) ;;;
  show (UISuccess (py "Comparison complete!")).

(** [if st.session_state.get(key): st.write(heading); st.write(value); ...]. *)
Definition show_artifact (heading : option str) (field : Session -> option str)
    : Run unit :=
  ss <- get_session ;;
  match get_truthy (field ss) with
  | Some v =>
      match heading with
      | Some h => show (UIWrite h)
      | None => ret tt
      end ;;;
      show (UIWrite v) ;;;
      show (UIWrite (py "---"))
  | None => ret tt
  end.

(** One run of the script of [src/app_selenium_3.py], top to bottom. *)
Definition script (inp : Inputs) : Run unit :=
  show (UITitle ([128240%N] ++ py " Multi-Article Incident Timeline Generator")) ;;;
  show (UIWrite (py "Enter a topic to fetch news, extract text, and build a chronological event timeline.")) ;;;
  (if search_btn inp then search_handler (query_input inp) else ret tt) ;;;
  show (UISubheader ([10024%N] ++ py " Additional Analysis Options")) ;;;
  ss <- get_session ;;
  match timeline ss with
  | None =>
      show (UIInfo (py "Run a search first to enable Translate / Highlights / Compare.")) ;;;
      st_stop
  | Some _ => ret tt
  end ;;;
  show (UIWrite (py "### " ++ [127760%N] ++ py " Translate Timeline")) ;;;
  (if translate_btn inp then translate_handler (target_lang_input inp) else ret tt) ;;;
  show_artifact (Some (py "## " ++ [127760%N] ++ py " Translated Timeline")) translated_timeline ;;;
  show (UIWrite (py "### " ++ [128270%N] ++ py " Get Key Highlights")) ;;;
  (if highlights_btn inp then highlights_handler else ret tt) ;;;
  show_artifact (Some (py "## " ++ [128273%N] ++ py " Key Highlights")) highlights ;;;
  show (UIWrite (py "### " ++ [127386%N] ++ py " Compare Sources")) ;;;
  (if compare_btn inp then compare_handler else ret tt) ;;;
  show_artifact None comparison ;;;
  timeline <- session_item "timeline" timeline ;;
  show (UIDownload (py "Download Timeline") timeline (py "timeline.txt")).

(** The derived operations, each as a run of the script with its button
    pressed. *)
Inductive DerivedOp : Type :=
  | Translate (target_lang : str)
  | Highlights
  | Compare.

Definition inputs_of (op : DerivedOp) : Inputs :=
  match op with
  | Translate lang => mkInputs (py "") false lang true false false
  | Highlights => mkInputs (py "") false (py "") false true false
  | Compare => mkInputs (py "") false (py "") false false true
  end.

End Program.

(** The extractor of the archived [src/archive/app_selenium_2.py]: the
    model is called without a handler. *)
Module Archive.

Definition extraction_prompt (chunk : str) (metadata : Metadata) : str :=
  nl ++ unlines [
    py "Extract factual events from this article chunk.";
    py "";
    py "### Metadata";
    py "Title: " ++ md_title metadata;
    py "Publisher: " ++ md_publisher metadata;
    py "Published Date: " ++ md_published metadata;
    py "URL: " ++ md_url metadata;
    py "";
    py "### Chunk:";
    chunk;
    py "";
    py "### Output format (strict):";
    py "- [time or date if known] Event description (source: "
      ++ md_publisher metadata ++ py ")" ].

Definition extract_events_from_chunk (w : World) (chunk : str) (metadata : Metadata)
    : Run str :=
  client_responses_create w (py "gpt-4.1-mini") (extraction_prompt chunk metadata).

End Archive.

(** The end of the search handler of the archived
    [src/archive/app_selenium_2.py]: the sentence-aware chunker, the
    extractor and the merge step without a handler, and the download
    button at the end of the search. *)
Module ArchiveHandler.

Definition merge_events_to_timeline (w : World) (events_list : str) : Run str :=
  client_responses_create w (py "gpt-4.1") (merge_prompt AppSelenium3 events_list).

Fixpoint extract_chunks (w : World) (chunks : list str) (metadata : Metadata)
    (all_events : list str) : Run (list str) :=
  match chunks with
  | [] => ret all_events
  | chunk :: rest =>
      events <- Archive.extract_events_from_chunk w chunk metadata ;;
      extract_chunks w rest metadata (all_events ++ [events])
  end.

Fixpoint extract_articles (w : World) (articles : list Article) (all_events : list str)
    : Run (list str) :=
  match articles with
  | [] => ret all_events
  | article :: rest =>
      let chunks := SentenceAware.chunk_text (content article) 300 in
      all_events' <- extract_chunks w chunks (metadata_of article) all_events ;;
      extract_articles w rest all_events'
  end.

Definition extract_and_merge (w : World) (articles : list Article) : Run unit :=
  show (UISubheader ([9203%N] ++ py " Extracting events from all articles...")) ;;;
  all_events <- extract_articles w articles [] ;;
  show (UISubheader ([128197%N] ++ py " Merging events into timeline")) ;;;
  timeline <- merge_events_to_timeline w (join nl all_events) ;;
  show (UISuccess (py "Timeline generated!")) ;;;
  show (UIWrite (py "---")) ;;;
  show (UIWrite (py "## " ++ [129517%N] ++ py " Final Chronological Timeline")) ;;;
  show (UIWrite timeline) ;;;
  show (UIWrite (py "---")) ;;;
  show (UIDownload (py "Download Timeline") timeline (py "timeline.txt")).

End ArchiveHandler.

(** [get_credibility_score(article)] of [src/app.py]: the prompt is built
    from the title, the publisher, the date and the first 1200 characters
    of the content; the model is called directly, inside a [try] with a
    bare [except] that returns a fixed JSON text. *)
Definition dquote : str := [34%N].

Definition credibility_prompt (article : Article) : str :=
  nl ++ unlines [
    py "Analyze the credibility of this news article and give a score (0-100).";
    py "";
    py "### Criteria:";
    py "- Reputed publisher";
    py "- Specific details (names, dates, numbers)";
    py "- Direct quotes";
    py "- Neutral language";
    py "- Internal consistency";
    py "- Avoids vague claims";
    py "- Completeness";
    py "";
    py "### Article:";
    py "Title: " ++ title article;
    py "Publisher: " ++ publisher article;
    py "Published: " ++ published article;
    py "";
    py "Content:";
    take 1200 (content article);
    py "";
    py "### Output strictly in JSON:";
    py "{";
    py "  " ++ dquote ++ py "score" ++ dquote ++ py ": number,";
    py "  " ++ dquote ++ py "reason" ++ dquote ++ py ": " ++ dquote
      ++ py "short explanation" ++ dquote;
    py "}" ].

(** The JSON text that the bare [except] returns: a score of 50 with the
    reason [Unable to calculate]. *)
Definition default_credibility : str :=
  py "{" ++ dquote ++ py "score" ++ dquote ++ py ": 50, " ++ dquote ++ py "reason"
  ++ dquote ++ py ": " ++ dquote ++ py "Unable to calculate" ++ dquote ++ py "}".

Definition get_credibility_score (w : World) (article : Article) : Run str :=
  try_except
    (client_responses_create w (py "gpt-4.1-mini") (credibility_prompt article))
    (fun _ => true)
    (fun _ => ret default_credibility).

(** The session after one run of the script in a world; the page and the
    list of calls start afresh, the session persists whatever the
    outcome. *)
Definition rerun (w : World) (inp : Inputs) (ss : Session) : Session :=
  session (snd (script w inp (mkSt ss [] [] []))).

(** A sequence of derived operations, each run in a world of its own. *)
Definition run_ops (ops : list (World * DerivedOp)) (ss : Session) : Session :=
  fold_left (fun ss wop => rerun (fst wop) (inputs_of (snd wop)) ss) ops ss.

(** ** Vocabulary of the statements *)

(** The chunks of an article at the default bound. *)
Definition chunks_of (article : Article) : list str :=
  match FixedWindow.chunk_text (content article) 300 with
  | Ok chunks => chunks
  | Raise _ => []
  end.

(** The extraction work of a run: every chunk of every article with the
    metadata of its article, in article order, then chunk order. *)
Definition work_list (articles : list Article) : list (str * Metadata) :=
  flat_map (fun a => map (fun c => (c, metadata_of a)) (chunks_of a)) articles.

(** What [ask_gpt] returns for an outcome of the model call. *)
Definition answer (r : ModelOutcome) : str :=
  match r with
  | Completion output_text => output_text
  | Failure _ msg => gpt_error_marker ++ msg
  end.

(** The model calls of the extraction work. *)
Definition extraction_calls (work : list (str * Metadata)) : list (str * str) :=
  map (fun cm => (py "gpt-4.1-mini", extraction_prompt (fst cm) (snd cm))) work.

(** The event records of the extraction work, when its first call is the
    [k]-th call of the run. *)
Fixpoint expected_events (w : World) (k : nat) (work : list (str * Metadata))
    : list str :=
  match work with
  | [] => []
  | (chunk, metadata) :: rest =>
      answer (responses_create w k (py "gpt-4.1-mini") (extraction_prompt chunk metadata))
      :: expected_events w (S k) rest
  end.

(** The calls of a list that go to the model of the merge step. *)
Definition merge_calls (l : list (str * str)) : list (str * str) :=
  filter (fun c => fst c = py "gpt-4.1") l.

(** The page of the end of the search handler, for a timeline. *)
Definition timeline_page (timeline : str) : list UIEvent :=
  [ UISuccess (py "Timeline generated!");
    UIWrite (py "## " ++ [129517%N] ++ py " Final Chronological Timeline");
    UIWrite timeline;
    UIWrite (py "---") ].

(** The article that the loop builds from an entry, if its text can be
    extracted. *)
Definition article_of (w : World) (entry : Entry) : option Article :=
  match resolve_real_url w (entry_link entry) with
  | Raise _ => None
  | Ok real_url =>
      match extract_text w real_url with
      | None => None
      | Some text =>
          Some (mkArticle (entry_title entry)
                          (default (py "Unknown") (entry_source_title entry))
                          (default (py "Unknown") (entry_published entry))
                          real_url text None)
      end
  end.

(** The browser session of every entry runs without an exception outside
    the [try]. *)
Definition browser_runs (w : World) (entries : list Entry) : bool :=
  forallb (fun entry =>
             match resolve_real_url w (entry_link entry) with
             | Ok _ => true
             | Raise _ => false
             end) entries.

(** A computation relates the session before it to the session after it by
    [R], however it ends. *)
Definition frame (R : Session -> Session -> Prop) {A} (m : Run A) : Prop :=
  forall s, R (session s) (session (snd (m s))).

(** The stored timeline and the stored articles are the same. *)
Definition same_stored (ss ss' : Session) : Prop :=
  timeline ss' = timeline ss /\ articles_data ss' = articles_data ss.

(** The other derived artifacts are the same. *)
Definition same_others (op : DerivedOp) (ss ss' : Session) : Prop :=
  match op with
  | Translate _ => highlights ss' = highlights ss /\ comparison ss' = comparison ss
  | Highlights =>
      translated_timeline ss' = translated_timeline ss /\ comparison ss' = comparison ss
  | Compare =>
      translated_timeline ss' = translated_timeline ss /\ highlights ss' = highlights ss
  end.

(** The accumulator of the sentence-aware chunker holds the sentences of
    the group [g], joined by single spaces, possibly after one leading
    space. *)
Definition glued (current : str) (g : list str) : Prop :=
  current = join (py " ") g \/ (g <> [] /\ current = py " " ++ join (py " ") g).

(** The number of chunks of an article at the default bound, by its number
    of words. *)
Definition chunk_count (article : Article) : Z :=
  (word_count (content article) + 299) / 300.

(** The extraction calls of one article: one for each of its chunks, in
    order, with the metadata of the article. *)
Definition article_calls (article : Article) : list (str * str) :=
  extraction_calls (map (fun c => (c, metadata_of article)) (chunks_of article)).

(** The five keys are all present. *)
Definition has_all (ss : Session) : bool :=
  match timeline ss, articles_data ss, translated_timeline ss, highlights ss,
        comparison ss with
  | Some _, Some _, Some _, Some _, Some _ => true
  | _, _, _, _, _ => false
  end.

(** The five keys are all absent or all present. *)
Definition coherent (ss : Session) : Prop := ss = empty_session \/ has_all ss = true.

(** The session after a sequence of runs of the script, each with its own
    world and inputs, from the empty session of a new browser session. *)
Definition sessions (runs : list (World * Inputs)) : Session :=
  fold_left (fun ss r => rerun (fst r) (snd r) ss) runs empty_session.

(** [e] is an exception that leaves the search handler of a run with
    these inputs. *)
Definition raised_by_search (w : World) (inp : Inputs) (e : PyExc) : Prop :=
  search_btn inp = true
  /\ exists s, fst (search_handler w (query_input inp) s) = Raised e.

(** From a session in [P], the computation ends normally with a session in
    [Q], or stops or raises with a session in [I]; what it raises is in
    [X]. *)
Definition striple {A} (X : PyExc -> Prop) (P : Session -> Prop) (m : Run A)
    (Q : A -> Session -> Prop) (I : Session -> Prop) : Prop :=
  forall s, P (session s) ->
    match m s with
    | (Done a, s') => Q a (session s')
    | (Stopped, s') => I (session s')
    | (Raised e, s') => I (session s') /\ X e
    end.

(** The model call of a derived operation, as (model, input), and the
    session key it writes. *)
Definition derived_call (timeline : str) (articles : list Article) (op : DerivedOp)
    : str * str :=
  match op with
  | Translate target_lang => (py "gpt-4.1-mini", translate_prompt timeline target_lang)
  | Highlights => (py "gpt-4.1-mini", highlights_prompt timeline)
  | Compare => (py "gpt-4.1", compare_prompt articles)
  end.

Definition artifact (op : DerivedOp) (ss : Session) : option str :=
  match op with
  | Translate _ => translated_timeline ss
  | Highlights => highlights ss
  | Compare => comparison ss
  end.






(** ** Worlds and inputs of the examples *)

Definition RateLimitError : PyExc :=
  AnException (py "RateLimitError") (py "quota exceeded").

Definition WebDriverException : PyExc :=
  AnException (py "WebDriverException") (py "unable to obtain driver for chrome").

(** A browser session without a redirect and without a failure. *)
Definition plain_session (google_url : str) : BrowserRun :=
  mkBrowserRun None None None (Ok google_url) None.

Definition depot_entry (n : string) : Entry :=
  mkEntry (py "https://news.google.com/rss/articles/" ++ py n)
          (py "Depot fire") (Some (py "Mon, 03 Nov 2025 08:00:00 GMT"))
          (Some (py "Daily Post")).

Definition depot_metadata : Metadata :=
  mkMetadata (py "Depot fire") (py "Daily Post")
             (py "Mon, 03 Nov 2025 08:00:00 GMT") (py "https://example.org/depot").

(** The model call always fails with a rate-limit error. *)
Definition quota_world : World :=
  mkWorld (fun _ => []) plain_session (fun _ => Ok None) (fun _ => Ok None)
          (fun _ _ _ => Failure (py "RateLimitError") (py "quota exceeded")).

(** The feed has one entry, whose page cannot be downloaded. *)
Definition paywalled_world : World :=
  mkWorld (fun _ => [depot_entry "1"]) plain_session
          (fun _ => Ok None) (fun _ => Ok None)
          (fun _ _ _ => Completion (py "No events were provided.")).

(** The Chrome driver cannot be installed. *)
Definition no_chrome_world : World :=
  mkWorld (fun _ => [depot_entry "1"])
          (fun google_url =>
             mkBrowserRun (Some WebDriverException) None None (Ok google_url) None)
          (fun _ => Ok None) (fun _ => Ok None)
          (fun _ _ _ => Completion (py "No events were provided.")).

(** The feed has twelve entries; the page of the second one cannot be
    downloaded. *)
Definition twelve_world : World :=
  mkWorld (fun _ => map depot_entry
                      ["1"; "2"; "3"; "4"; "5"; "6"; "7"; "8"; "9"; "10"; "11"; "12"]%string)
          plain_session
          (fun url => if decide (url = py "https://news.google.com/rss/articles/2")
                      then Ok None else Ok (Some (py "<html>Fire.</html>")))
          (fun _ => Ok (Some (py "Fire at the depot. Two hurt.")))
          (fun _ _ _ => Completion (py "- [Monday] Fire at the depot (source: Daily Post)")).

Definition search_inputs (query : string) : Inputs :=
  mkInputs (py query) true (py "") false false false.

Definition fresh : St := mkSt empty_session [] [] [].

(** A session after a search, and a run in which no button is pressed. *)
Definition stored_session : Session :=
  mkSession (Some (py "- [Monday] Fire at the depot")) (Some [])
            (Some (py "")) (Some (py "")) (Some (py "")).

Definition idle_inputs : Inputs := mkInputs (py "") false (py "") false false false.

(** An article of the Daily Post with the given content. *)
Definition depot_article (text : str) : Article :=
  mkArticle (py "Depot fire") (py "Daily Post") (py "Mon, 03 Nov 2025 08:00:00 GMT")
            (py "https://example.org/depot") text None.

(* ===================================================================== *)
(** * Words, whitespace and sentences *)
(* ===================================================================== *)

Example split_ex : split (py "  a bc  d ") = [py "a"; py "bc"; py "d"].
Proof. reflexivity. Qed.
Example re_split_ex :
  re_split_sentences (py "One two.  Three! four ? ") =
  [py "One two."; py "Three!"; py "four ?"; py ""].
Proof. reflexivity. Qed.
Example fixed_ex :
  FixedWindow.chunk_text (py " a b  c d e ") 2 = Ok [py "a b"; py "c d"; py "e"].
Proof. reflexivity. Qed.
Example sentence_ex :
  SentenceAware.chunk_text (py "A b c. D. E f.") 2 = [py ""; py "A b c."; py "D."; py "E f."].
Proof. reflexivity. Qed.

Lemma is_end_not_space c : is_end c = true -> isspace c = false.
Proof.
  unfold is_end. rewrite !orb_true_iff, !N.eqb_eq.
  intros [[-> | ->] | ->]; reflexivity.
Qed.

Lemma split_eq c s :
  split (c :: s) =
  if isspace c then split s
  else match s with
       | [] => [[c]]
       | c' :: _ => if isspace c' then [c] :: split s else push_char c (split s)
       end.
Proof. reflexivity. Qed.

Lemma split_cons_nonspace c s : isspace c = false -> split (c :: s) <> [].
Proof.
  intros Hc. rewrite split_eq, Hc. destruct s as [|c' s']; [easy|].
  destruct (isspace c'); [easy|]. destruct (split (c' :: s')); easy.
Qed.

Lemma push_char_app c (l1 l2 : list str) :
  l1 <> [] -> push_char c (l1 ++ l2) = push_char c l1 ++ l2.
Proof. destruct l1; [congruence | reflexivity]. Qed.

Lemma push_char_length c (l : list str) :
  l <> [] -> length (push_char c l) = length l.
Proof. destruct l; [congruence | reflexivity]. Qed.

(** A whitespace character between two texts separates their words. *)
Lemma split_app_space a c b :
  isspace c = true -> split (a ++ c :: b) = split a ++ split b.
Proof.
  intros Hc. induction a as [|x a IH].
  - cbn [app]. rewrite split_eq, Hc. reflexivity.
  - rewrite <- app_comm_cons, !split_eq.
    destruct (isspace x) eqn:Hx; [exact IH|].
    destruct a as [|y a'].
    + cbn [app] in *. rewrite Hc, IH. reflexivity.
    + rewrite <- app_comm_cons in *.
      destruct (isspace y) eqn:Hy.
      * rewrite IH. reflexivity.
      * rewrite IH. apply push_char_app. now apply split_cons_nonspace.
Qed.

Lemma split_app_sp a b : split (a ++ py " " ++ b) = split a ++ split b.
Proof. apply split_app_space. reflexivity. Qed.

(** Gluing two texts loses at most one word. *)
Lemma split_length_app a b :
  (length (split a) + length (split b) <= length (split (a ++ b)) + 1)%nat.
Proof.
  induction a as [|x a IH]; [cbn; lia|].
  rewrite <- app_comm_cons, !split_eq.
  destruct (isspace x) eqn:Hx; [exact IH|].
  destruct a as [|y a'].
  - cbn [app length]. destruct b as [|z b']; [cbn; lia|].
    destruct (isspace z) eqn:Hz; [cbn [length]; lia|].
    rewrite push_char_length by now apply split_cons_nonspace. lia.
  - rewrite <- app_comm_cons in *.
    destruct (isspace y) eqn:Hy; [cbn [length]; lia|].
    rewrite !push_char_length; [exact IH| |]; now apply split_cons_nonspace.
Qed.

Lemma split_words s : Forall is_word (split s).
Proof.
  induction s as [|c s IH]; [constructor|].
  rewrite split_eq. destruct (isspace c) eqn:Hc; [exact IH|].
  assert (Hw : is_word [c]) by (split; [easy | repeat constructor; exact Hc]).
  destruct s as [|c' s']; [constructor; [exact Hw | constructor]|].
  destruct (isspace c') eqn:Hc'; [constructor; assumption|].
  destruct (split (c' :: s')) as [|v vs]; [constructor; [exact Hw | constructor]|].
  inversion IH as [|? ? [Hv1 Hv2] Hvs]; subst.
  constructor; [|assumption]. split; [easy | constructor; assumption].
Qed.

Lemma split_word v : is_word v -> split v = [v].
Proof.
  intros [Hne Hall]. induction v as [|c v IH]; [congruence|].
  inversion Hall as [|? ? Hc Hv]; subst. rewrite split_eq, Hc.
  destruct v as [|c' v']; [reflexivity|].
  inversion Hv as [|? ? Hc' _]; subst. rewrite Hc'.
  rewrite IH by (easy || assumption). reflexivity.
Qed.

(** The words of [" ".join(ws)] are [ws], when [ws] is a list of words. *)
Lemma split_join ws : Forall is_word ws -> split (join (py " ") ws) = ws.
Proof.
  induction ws as [|v ws IH]; intros Hall; [reflexivity|].
  inversion Hall as [|? ? Hv Hws]; subst.
  destruct ws as [|v' ws'].
  - cbn [join]. now apply split_word.
  - change (join (py " ") (v :: v' :: ws'))
      with (v ++ py " " ++ join (py " ") (v' :: ws')).
    rewrite split_app_sp, IH by assumption. rewrite split_word by assumption.
    reflexivity.
Qed.

Lemma split_lstrip s : split (lstrip s) = split s.
Proof.
  induction s as [|c s IH]; [reflexivity|].
  cbn [lstrip]. destruct (isspace c) eqn:Hc; [|reflexivity].
  rewrite split_eq, Hc. exact IH.
Qed.

Lemma rstrip_nil s : rstrip s = [] -> split s = [].
Proof.
  induction s as [|c s IH]; [reflexivity|].
  cbn [rstrip]. destruct (rstrip s) as [|r rs] eqn:Hr; [|discriminate].
  destruct (isspace c) eqn:Hc; [|discriminate].
  intros _. rewrite split_eq, Hc. now apply IH.
Qed.

Lemma rstrip_head c s r rs : rstrip (c :: s) = r :: rs -> r = c.
Proof.
  cbn [rstrip]. destruct (rstrip s); [destruct (isspace c)|]; congruence.
Qed.

Lemma split_rstrip s : split (rstrip s) = split s.
Proof.
  induction s as [|c s IH]; [reflexivity|].
  cbn [rstrip]. destruct (rstrip s) as [|r rs] eqn:Hr.
  - pose proof (rstrip_nil s Hr) as Hs.
    destruct (isspace c) eqn:Hc.
    + rewrite split_eq, Hc, Hs. reflexivity.
    + rewrite (split_eq c s), (split_eq c []), Hc.
      destruct s as [|c' s']; [reflexivity|].
      destruct (isspace c') eqn:Hc'; [now rewrite Hs|].
      now apply split_cons_nonspace in Hs.
  - destruct s as [|c' s']; [discriminate|].
    apply rstrip_head in Hr as Hh. subst r.
    rewrite (split_eq c (c' :: rs)), (split_eq c (c' :: s')), IH. reflexivity.
Qed.

Lemma split_strip s : split (strip s) = split s.
Proof. unfold strip. now rewrite split_rstrip, split_lstrip. Qed.

Lemma word_count_strip s : word_count (strip s) = word_count s.
Proof. unfold word_count. now rewrite split_strip. Qed.

Lemma rstrip_nil_inv s : split s = [] -> rstrip s = [].
Proof.
  induction s as [|c s IH]; [reflexivity|].
  intros Hs. destruct (isspace c) eqn:Hc.
  - rewrite split_eq, Hc in Hs. cbn [rstrip]. now rewrite IH, Hc.
  - now apply split_cons_nonspace in Hs.
Qed.

(** A stripped text is empty exactly when the text has no word. *)
Lemma strip_nil_iff s : strip s = [] <-> split s = [].
Proof.
  split; intros H.
  - rewrite <- split_strip, H. reflexivity.
  - unfold strip. apply rstrip_nil_inv. now rewrite split_lstrip.
Qed.

Lemma truthy_strip s : truthy (strip s) = false <-> split s = [].
Proof.
  rewrite <- strip_nil_iff. destruct (strip s); cbn; split; congruence.
Qed.

(* ===================================================================== *)
(** * The sentences of a text *)
(* ===================================================================== *)

Lemma re_split_from_nonempty b s : re_split_from b s <> [].
Proof.
  revert b. induction s as [|c s IH]; intros b; cbn [re_split_from]; [easy|].
  destruct (b && isspace c); [apply IH|].
  destruct (is_end c && starts_with_space s); [easy|].
  specialize (IH false). destruct (re_split_from false s); easy.
Qed.

(** The sentences carry the words of the text: with [pre] glued in front of
    the first sentence, they read as [pre ++ s]. *)
Lemma re_split_from_words s :
  forall b pre p ps,
    (b = true -> pre = []) ->
    re_split_from b s = p :: ps ->
    split (pre ++ p) ++ words_of_chunks ps = split (pre ++ s).
Proof.
  unfold words_of_chunks.
  induction s as [|c s IH]; intros b pre p ps Hb; cbn [re_split_from].
  - intros [= <- <-]. cbn. now rewrite app_nil_r.
  - destruct (b && isspace c) eqn:Hskip.
    + apply andb_true_iff in Hskip as [-> Hc]. rewrite (Hb eq_refl).
      intros Hs. rewrite (IH true [] p ps (fun _ => eq_refl) Hs).
      cbn [app]. now rewrite split_eq, Hc.
    + destruct (is_end c && starts_with_space s) eqn:Hcut.
      * apply andb_true_iff in Hcut as [Hc Hsp]. intros [= <- <-].
        destruct s as [|sp s']; [discriminate|]. cbn in Hsp.
        destruct (re_split_from true (sp :: s')) as [|p' ps'] eqn:Hr;
          [now apply re_split_from_nonempty in Hr|].
        pose proof (IH true [] p' ps' (fun _ => eq_refl) Hr) as IH'.
        cbn [app map concat] in *. rewrite IH'.
        rewrite (split_eq sp s'), Hsp.
        change (pre ++ c :: sp :: s') with (pre ++ [c] ++ sp :: s').
        rewrite app_assoc. now rewrite (split_app_space (pre ++ [c]) sp s').
      * destruct (re_split_from false s) as [|p0 ps0] eqn:Hr;
          [now apply re_split_from_nonempty in Hr|].
        cbn [push_char]. intros [= <- <-].
        pose proof (IH false (pre ++ [c]) p0 ps0 ltac:(discriminate) Hr) as IH'.
        rewrite <- !app_assoc in IH'. exact IH'.
Qed.

Lemma re_split_sentences_words text :
  words_of_chunks (re_split_sentences text) = split text.
Proof.
  unfold re_split_sentences.
  destruct (re_split_from false text) as [|p ps] eqn:Hr;
    [now apply re_split_from_nonempty in Hr|].
  apply (re_split_from_words text false [] p ps); [discriminate | exact Hr].
Qed.

(** Every sentence but the last ends with one of [. ? !], so it has a
    word. *)
Lemma re_split_from_nonlast s :
  forall b l1 p l2,
    re_split_from b s = l1 ++ p :: l2 -> l2 <> [] -> split p <> [].
Proof.
  induction s as [|c s IH]; intros b l1 p l2; cbn [re_split_from].
  - intros H Hl2. destruct l1 as [|x [|y l1]]; cbn in H; try discriminate.
    injection H as _ <-. congruence.
  - destruct (b && isspace c); [apply IH|].
    destruct (is_end c && starts_with_space s) eqn:Hcut.
    + apply andb_true_iff in Hcut as [Hc _]. apply is_end_not_space in Hc.
      destruct l1 as [|x l1]; cbn [app].
      * intros [= <- _] _. now apply split_cons_nonspace.
      * intros [= _ H]. now apply (IH true l1).
    + destruct (re_split_from false s) as [|p0 ps0] eqn:Hr;
        [now apply re_split_from_nonempty in Hr|].
      cbn [push_char]. destruct l1 as [|x l1]; cbn [app].
      * intros [= <- <-] Hl2. destruct (isspace c) eqn:Hc.
        -- rewrite split_eq, Hc. now apply (IH false [] p0 ps0 Hr).
        -- now apply split_cons_nonspace.
      * intros [= _ H]. apply (IH false (p0 :: l1)). now rewrite Hr, H.
Qed.

Lemma re_split_sentences_nonlast text l1 p l2 :
  re_split_sentences text = l1 ++ p :: l2 -> l2 <> [] -> split p <> [].
Proof. apply re_split_from_nonlast. Qed.

(* ===================================================================== *)
(** * The fixed-window chunker *)
(* ===================================================================== *)

(** The windows that [range] enumerates tile the list. *)
Lemma range_up_tiles {A} (l : list A) (n : nat) :
  (0 < n)%nat ->
  forall fuel i,
    (length l - i <= fuel)%nat ->
    concat (map (fun i => take n (drop i l)) (range_up fuel i (length l) n))
    = drop i l.
Proof.
  intros Hn. induction fuel as [|fuel IH]; intros i Hi; cbn [range_up].
  - cbn. symmetry. apply drop_ge. lia.
  - destruct (Nat.ltb_spec i (length l)) as [Hlt | Hge].
    + cbn [map concat]. rewrite IH by lia.
      rewrite <- drop_drop. apply take_drop.
    + cbn. symmetry. apply drop_ge. lia.
Qed.

Lemma range_up_below fuel i stop step :
  Forall (fun j => (j < stop)%nat) (range_up fuel i stop step).
Proof.
  revert i. induction fuel as [|fuel IH]; intros i; cbn [range_up]; [constructor|].
  destruct (Nat.ltb_spec i stop); [constructor; [assumption | apply IH] | constructor].
Qed.

Lemma slice_words text i n :
  Forall is_word (slice (split text) i n).
Proof. unfold slice. apply Forall_take, Forall_drop, split_words. Qed.

Lemma fixed_window_words text max_words idx :
  words_of_chunks (map (fun i => join (py " ") (slice (split text) i max_words)) idx)
  = concat (map (fun i => slice (split text) i max_words) idx).
Proof.
  unfold words_of_chunks. induction idx as [|i idx IH]; [reflexivity|].
  cbn [map concat]. rewrite IH, split_join by apply slice_words. reflexivity.
Qed.

Lemma fixed_window_ok text max_words :
  0 < max_words ->
  FixedWindow.chunk_text text max_words =
  Ok (map (fun i => join (py " ") (slice (split text) i max_words))
          (range_up (length (split text)) 0 (length (split text)) (Z.to_nat max_words))).
Proof.
  intros H. unfold FixedWindow.chunk_text, range.
  destruct (Z.eqb_spec max_words 0); [lia|].
  destruct (Z.ltb_spec max_words 0); [lia|]. reflexivity.
Qed.

Lemma fixed_window_lossless text max_words :
  0 < max_words ->
  exists chunks,
    FixedWindow.chunk_text text max_words = Ok chunks /\
    words_of_chunks chunks = split text.
Proof.
  intros H. eexists. split; [now apply fixed_window_ok|].
  rewrite fixed_window_words. unfold slice.
  rewrite range_up_tiles by lia. reflexivity.
Qed.

Lemma fixed_window_bound text max_words chunks :
  FixedWindow.chunk_text text max_words = Ok chunks ->
  Forall (fun c => word_count c <= max_words) chunks.
Proof.
  unfold FixedWindow.chunk_text, range.
  destruct (Z.eqb_spec max_words 0); [discriminate|].
  destruct (Z.ltb_spec max_words 0); intros [= <-]; [constructor|].
  apply Forall_map, Forall_forall. intros i _.
  unfold word_count. rewrite split_join by apply slice_words.
  unfold slice. rewrite length_take. lia.
Qed.

(* ===================================================================== *)
(** * The sentence-aware chunker *)
(* ===================================================================== *)

Lemma words_of_chunks_app l1 l2 :
  words_of_chunks (l1 ++ l2) = words_of_chunks l1 ++ words_of_chunks l2.
Proof. unfold words_of_chunks. now rewrite map_app, concat_app. Qed.

Lemma words_of_chunks_one c : words_of_chunks [c] = split c.
Proof. unfold words_of_chunks. cbn. apply app_nil_r. Qed.

(** One step of the loop keeps the words read so far and adds the words of
    the sentence. *)
Lemma step_words max_words chunks current s :
  words_of_chunks (fst (SentenceAware.step max_words (chunks, current) s))
    ++ split (snd (SentenceAware.step max_words (chunks, current) s))
  = (words_of_chunks chunks ++ split current) ++ split s.
Proof.
  unfold SentenceAware.step.
  destruct (word_count (current ++ s) <? max_words); cbn [fst snd].
  - rewrite split_app_sp. now rewrite app_assoc.
  - rewrite words_of_chunks_app, words_of_chunks_one, split_strip. reflexivity.
Qed.

Lemma loop_words max_words sentences :
  forall chunks current,
    words_of_chunks (fst (SentenceAware.loop max_words sentences (chunks, current)))
      ++ split (snd (SentenceAware.loop max_words sentences (chunks, current)))
    = (words_of_chunks chunks ++ split current) ++ words_of_chunks sentences.
Proof.
  unfold SentenceAware.loop.
  induction sentences as [|s ss IH]; intros chunks current; cbn [fold_left].
  - unfold words_of_chunks at 3. cbn. now rewrite app_nil_r.
  - destruct (SentenceAware.step max_words (chunks, current) s) as [chunks' current'] eqn:Hs.
    rewrite IH. pose proof (step_words max_words chunks current s) as Hw.
    rewrite Hs in Hw. cbn [fst snd] in Hw. rewrite Hw.
    unfold words_of_chunks at 3. cbn [map concat].
    now rewrite <- !app_assoc.
Qed.

Lemma sentence_aware_lossless text max_words :
  words_of_chunks (SentenceAware.chunk_text text max_words) = split text.
Proof.
  unfold SentenceAware.chunk_text.
  pose proof (loop_words max_words (re_split_sentences text) [] []) as Hw.
  destruct (SentenceAware.loop max_words (re_split_sentences text) ([], []))
    as [chunks current].
  cbn [fst snd] in Hw. rewrite re_split_sentences_words in Hw.
  change (words_of_chunks chunks ++ split current = split text) in Hw.
  rewrite <- Hw.
  destruct (truthy (strip current)) eqn:Ht.
  - now rewrite words_of_chunks_app, words_of_chunks_one, split_strip.
  - apply truthy_strip in Ht. now rewrite Ht, app_nil_r.
Qed.

Lemma sentence_aware_empty max_words :
  0 < max_words -> SentenceAware.chunk_text [] max_words = [].
Proof.
  intros H.
  unfold SentenceAware.chunk_text, SentenceAware.loop, re_split_sentences.
  cbn [re_split_from fold_left]. unfold SentenceAware.step.
  change (word_count ([] ++ [])) with 0.
  destruct (Z.ltb_spec 0 max_words); [reflexivity | lia].
Qed.

(** The accumulator is within the bound or is one sentence; the chunks are
    within the bound or one oversized sentence each. *)
Lemma step_bound text max_words chunks current s :
  0 <= max_words ->
  In s (re_split_sentences text) ->
  Forall (fun c => word_count c <= max_words
                   \/ single_oversized_sentence text max_words c) chunks ->
  word_count current <= max_words \/ In current (re_split_sentences text) ->
  Forall (fun c => word_count c <= max_words
                   \/ single_oversized_sentence text max_words c)
         (fst (SentenceAware.step max_words (chunks, current) s))
  /\ (word_count (snd (SentenceAware.step max_words (chunks, current) s)) <= max_words
      \/ In (snd (SentenceAware.step max_words (chunks, current) s))
            (re_split_sentences text)).
Proof.
  intros Hn Hs Hchunks Hcur. unfold SentenceAware.step.
  destruct (Z.ltb_spec (word_count (current ++ s)) max_words) as [Hlt | Hge];
    cbn [fst snd].
  - split; [assumption|]. left. unfold word_count in *.
    rewrite split_app_sp, length_app.
    pose proof (split_length_app current s). lia.
  - split; [|now right]. apply Forall_app. split; [assumption|].
    constructor; [|constructor].
    destruct (Z_le_gt_dec (word_count current) max_words) as [Hle | Hgt].
    + left. now rewrite word_count_strip.
    + right. destruct Hcur as [Hcur | Hcur]; [lia|].
      exists current. repeat split; [assumption | lia].
Qed.

Lemma loop_bound text max_words :
  0 <= max_words ->
  forall sentences chunks current,
    (forall s, In s sentences -> In s (re_split_sentences text)) ->
    Forall (fun c => word_count c <= max_words
                     \/ single_oversized_sentence text max_words c) chunks ->
    word_count current <= max_words \/ In current (re_split_sentences text) ->
    Forall (fun c => word_count c <= max_words
                     \/ single_oversized_sentence text max_words c)
           (fst (SentenceAware.loop max_words sentences (chunks, current)))
    /\ (word_count (snd (SentenceAware.loop max_words sentences (chunks, current)))
          <= max_words
        \/ In (snd (SentenceAware.loop max_words sentences (chunks, current)))
              (re_split_sentences text)).
Proof.
  intros Hn. unfold SentenceAware.loop.
  induction sentences as [|s ss IH]; intros chunks current Hin Hchunks Hcur;
    cbn [fold_left]; [now split|].
  destruct (step_bound text max_words chunks current s Hn
              (Hin s (or_introl eq_refl)) Hchunks Hcur) as [H1 H2].
  destruct (SentenceAware.step max_words (chunks, current) s) as [chunks' current'].
  apply IH; [intros s' Hs'; apply Hin; now right | exact H1 | exact H2].
Qed.

Lemma sentence_aware_bound text max_words :
  0 <= max_words ->
  Forall (fun c => word_count c <= max_words
                   \/ single_oversized_sentence text max_words c)
         (SentenceAware.chunk_text text max_words).
Proof.
  intros Hn. unfold SentenceAware.chunk_text.
  destruct (loop_bound text max_words Hn (re_split_sentences text) [] []
              (fun s H => H) ltac:(constructor) (or_introl Hn)) as [H1 H2].
  destruct (SentenceAware.loop max_words (re_split_sentences text) ([], []))
    as [chunks current].
  cbn [fst snd] in *. destruct (truthy (strip current)); [|exact H1].
  apply Forall_app. split; [exact H1|]. constructor; [|constructor].
  destruct (Z_le_gt_dec (word_count current) max_words) as [Hle | Hgt].
  - left. now rewrite word_count_strip.
  - right. destruct H2 as [H2 | H2]; [lia|].
    exists current. repeat split; [assumption | lia].
Qed.

(** The loop only appends; while another sentence is still to come the
    accumulator has a word, so every chunk it appends is non-empty. *)
Lemma loop_appends_nonempty max_words :
  forall sentences chunks current,
    (forall l1 p l2, sentences = l1 ++ p :: l2 -> l2 <> [] -> split p <> []) ->
    (sentences <> [] -> split current <> []) ->
    exists added,
      fst (SentenceAware.loop max_words sentences (chunks, current)) = chunks ++ added
      /\ Forall (fun c => c <> []) added.
Proof.
  unfold SentenceAware.loop.
  induction sentences as [|s ss IH]; intros chunks current Hnl Hcur; cbn [fold_left].
  - exists []. split; [now rewrite app_nil_r | constructor].
  - assert (Hnl' : forall l1 p l2, ss = l1 ++ p :: l2 -> l2 <> [] -> split p <> []).
    { intros l1 p l2 -> Hl2. now apply (Hnl (s :: l1) p l2). }
    assert (Hs : ss <> [] -> split s <> []).
    { intros Hss. now apply (Hnl [] s ss). }
    specialize (Hcur ltac:(discriminate)).
    unfold SentenceAware.step at 2.
    destruct (word_count (current ++ s) <? max_words).
    + apply IH; [exact Hnl'|]. intros _. rewrite split_app_sp.
      destruct (split current); [congruence | discriminate].
    + destruct (IH (chunks ++ [strip current]) s Hnl' Hs) as (added & Heq & Hall).
      exists (strip current :: added). split.
      * rewrite Heq, <- app_assoc. reflexivity.
      * constructor; [|exact Hall]. now rewrite strip_nil_iff.
Qed.

Lemma loop_appends max_words sentences chunks current :
  exists added,
    fst (SentenceAware.loop max_words sentences (chunks, current)) = chunks ++ added.
Proof.
  unfold SentenceAware.loop. revert chunks current.
  induction sentences as [|s ss IH]; intros chunks current; cbn [fold_left].
  - exists []. now rewrite app_nil_r.
  - unfold SentenceAware.step at 2.
    destruct (word_count (current ++ s) <? max_words); [apply IH|].
    destruct (IH (chunks ++ [strip current]) s) as (added & Heq).
    exists (strip current :: added). now rewrite Heq, <- app_assoc.
Qed.

Lemma truthy_nonempty (s : str) : truthy s = true -> s <> [].
Proof. destruct s; [discriminate | easy]. Qed.

(** Every chunk after the first is non-empty. *)
Lemma sentence_aware_tail_nonempty text max_words :
  Forall (fun c => c <> []) (tail (SentenceAware.chunk_text text max_words)).
Proof.
  unfold SentenceAware.chunk_text.
  pose proof (re_split_sentences_nonlast text) as Hnl.
  destruct (re_split_sentences text) as [|s0 rest] eqn:Hr;
    [now apply re_split_from_nonempty in Hr|].
  unfold SentenceAware.loop. cbn [fold_left].
  assert (Hnl' : forall l1 p l2, rest = l1 ++ p :: l2 -> l2 <> [] -> split p <> []).
  { intros l1 p l2 -> Hl2. now apply (Hnl (s0 :: l1) p l2). }
  assert (Hs0 : rest <> [] -> split s0 <> []).
  { intros Hrest. now apply (Hnl [] s0 rest). }
  unfold SentenceAware.step at 2.
  destruct (word_count ([] ++ s0) <? max_words).
  - destruct rest as [|s1 rest'].
    + cbn [fold_left]. destruct (truthy (strip ([] ++ py " " ++ s0))); constructor.
    + destruct (loop_appends_nonempty max_words (s1 :: rest') [] ([] ++ py " " ++ s0) Hnl')
        as (added & Heq & Hall).
      { intros _. rewrite split_app_sp. cbn [split app].
        now apply Hs0. }
      unfold SentenceAware.loop in Heq.
      destruct (fold_left (SentenceAware.step max_words) (s1 :: rest')
                  ([], [] ++ py " " ++ s0)) as [chunks current].
      cbn [fst app] in Heq. subst chunks.
      assert (Forall (fun c : str => c <> [])
                (if truthy (strip current) then added ++ [strip current] else added)).
      { destruct (truthy (strip current)) eqn:Ht; [|exact Hall].
        apply Forall_app. split; [exact Hall|].
        constructor; [now apply truthy_nonempty | constructor]. }
      destruct (if truthy (strip current) then added ++ [strip current] else added);
        [constructor|]. now inversion H.
  - destruct (loop_appends_nonempty max_words rest ([] ++ [strip []]) s0 Hnl' Hs0)
      as (added & Heq & Hall).
    unfold SentenceAware.loop in Heq.
    destruct (fold_left (SentenceAware.step max_words) rest ([] ++ [strip []], s0))
      as [chunks current].
    cbn [fst] in Heq. subst chunks.
    destruct (truthy (strip current)) eqn:Ht; cbn [app tail]; [|exact Hall].
    apply Forall_app. split; [exact Hall|].
    constructor; [now apply truthy_nonempty | constructor].
Qed.

(** A first sentence with at least [max_words] words is flushed at once, on
    the empty accumulator. *)
Lemma sentence_aware_empty_head text max_words :
  max_words <= word_count (first_sentence text) ->
  head (SentenceAware.chunk_text text max_words) = Some [].
Proof.
  unfold first_sentence, SentenceAware.chunk_text.
  destruct (re_split_sentences text) as [|s0 rest] eqn:Hr;
    [now apply re_split_from_nonempty in Hr|].
  cbn [hd]. intros Hn. unfold SentenceAware.loop. cbn [fold_left].
  unfold SentenceAware.step at 2. cbn [app].
  destruct (Z.ltb_spec (word_count s0) max_words); [lia|].
  destruct (loop_appends max_words rest [strip []] s0) as (added & Heq).
  unfold SentenceAware.loop in Heq.
  destruct (fold_left (SentenceAware.step max_words) rest ([strip []], s0))
    as [chunks current].
  cbn [fst] in Heq. subst chunks.
  destruct (truthy (strip current)); reflexivity.
Qed.

Lemma words_of_chunks_join chunks :
  split (join (py " ") chunks) = words_of_chunks chunks.
Proof.
  induction chunks as [|c cs IH]; [reflexivity|].
  destruct cs as [|c' cs'].
  - cbn [join]. now rewrite words_of_chunks_one.
  - change (join (py " ") (c :: c' :: cs'))
      with (c ++ py " " ++ join (py " ") (c' :: cs')).
    rewrite split_app_sp, IH. reflexivity.
Qed.

(* ===================================================================== *)
(** * Properties of the chunkers *)
(* ===================================================================== *)

(** C2. Chunking is lossless: for every text and every positive word
    bound, the chunks of the fixed-window chunker and the chunks of the
    sentence-aware chunker, read one after the other as words, are exactly
    the words of the text, in order, none lost and none twice; and the
    empty text has no chunk. *)
Theorem chunking_lossless (text : str) (max_words : Z) :
  0 < max_words ->
  (exists chunks,
      FixedWindow.chunk_text text max_words = Ok chunks /\
      words_of_chunks chunks = split text /\
      split (join (py " ") chunks) = split text)
  /\ (words_of_chunks (SentenceAware.chunk_text text max_words) = split text /\
      split (join (py " ") (SentenceAware.chunk_text text max_words)) = split text)
  /\ FixedWindow.chunk_text [] max_words = Ok []
  /\ SentenceAware.chunk_text [] max_words = [].
Proof.
  intros H. repeat split.
  - destruct (fixed_window_lossless text max_words H) as (chunks & Hc & Hw).
    exists chunks. repeat split; [assumption.. |].
    now rewrite words_of_chunks_join.
  - apply sentence_aware_lossless.
  - rewrite words_of_chunks_join. apply sentence_aware_lossless.
  - now rewrite fixed_window_ok.
  - now apply sentence_aware_empty.
Qed.

Lemma chunking_lossless_witness :
  0 < 2
  /\ (exists chunks,
         FixedWindow.chunk_text (py "A b c. D. E f.") 2 = Ok chunks /\
         words_of_chunks chunks = split (py "A b c. D. E f.") /\
         split (join (py " ") chunks) = split (py "A b c. D. E f."))
  /\ (words_of_chunks (SentenceAware.chunk_text (py "A b c. D. E f.") 2)
        = split (py "A b c. D. E f.") /\
      split (join (py " ") (SentenceAware.chunk_text (py "A b c. D. E f.") 2))
        = split (py "A b c. D. E f."))
  /\ FixedWindow.chunk_text [] 2 = Ok []
  /\ SentenceAware.chunk_text [] 2 = [].
Proof.
  split; [reflexivity|].
  apply (chunking_lossless (py "A b c. D. E f.") 2). reflexivity.
Defined.

(** C6. Chunking respects the bound: for every text and every bound (a
    non-negative number of words), every chunk of the fixed-window chunker
    has at most [max_words] words, and every chunk of the sentence-aware
    chunker has at most [max_words] words or is one whole sentence of the
    text that alone has more. *)
Theorem chunking_respects_bound (text : str) (max_words : Z) :
  0 <= max_words ->
  (forall chunks,
      FixedWindow.chunk_text text max_words = Ok chunks ->
      Forall (fun c => word_count c <= max_words) chunks)
  /\ Forall (fun c => word_count c <= max_words
                      \/ single_oversized_sentence text max_words c)
            (SentenceAware.chunk_text text max_words).
Proof.
  intros H. split.
  - intros chunks. apply fixed_window_bound.
  - now apply sentence_aware_bound.
Qed.

Lemma chunking_respects_bound_witness :
  0 <= 2
  /\ (forall chunks,
         FixedWindow.chunk_text (py "A b c. D. E f.") 2 = Ok chunks ->
         Forall (fun c => word_count c <= 2) chunks)
  /\ Forall (fun c => word_count c <= 2
                      \/ single_oversized_sentence (py "A b c. D. E f.") 2 c)
            (SentenceAware.chunk_text (py "A b c. D. E f.") 2).
Proof.
  split; [discriminate|].
  apply (chunking_respects_bound (py "A b c. D. E f.") 2). discriminate.
Defined.

(** C10, as the code has it.  In the sentence-aware chunker, a text whose
    first sentence alone has at least [max_words] words gets the empty
    string as its first chunk; an empty chunk occurs at the start only:
    every later chunk is non-empty, because the accumulator has a word
    whenever a sentence has been read and another one is still to come. *)
Theorem empty_chunk_only_first (text : str) (max_words : Z) :
  (max_words <= word_count (first_sentence text) ->
   head (SentenceAware.chunk_text text max_words) = Some [])
  /\ Forall (fun c => c <> []) (tail (SentenceAware.chunk_text text max_words))
  /\ (forall read s to_come,
         re_split_sentences text = read ++ s :: to_come ->
         to_come <> [] ->
         split (snd (SentenceAware.loop max_words (read ++ [s]) ([], []))) <> []).
Proof.
  split; [apply sentence_aware_empty_head|].
  split; [apply sentence_aware_tail_nonempty|].
  intros read s to_come Hr Hto. unfold SentenceAware.loop.
  rewrite fold_left_app. cbn [fold_left].
  destruct (fold_left (SentenceAware.step max_words) read ([], [])) as [chunks current].
  pose proof (re_split_sentences_nonlast text read s to_come Hr Hto) as Hs.
  unfold SentenceAware.step.
  destruct (word_count (current ++ s) <? max_words); cbn [snd]; [|exact Hs].
  rewrite split_app_sp. destruct (split current); [exact Hs | discriminate].
Qed.

(** C10, at a text that ends with a full stop and a space.  The last
    element of [re.split] is the empty string; the loop flushes
    ["a b c."] on it and the accumulator is empty after this flush.  No
    chunk comes from it, because the last append is guarded. *)
Lemma accumulator_empty_after_flush :
  re_split_sentences (py "a b c. ") = [py "a b c."; py ""]
  /\ SentenceAware.step 2 ([py ""], py "a b c.") (py "")
     = ([py ""; py "a b c."], py "")
  /\ SentenceAware.loop 2 (re_split_sentences (py "a b c. ")) ([], [])
     = ([py ""; py "a b c."], py "")
  /\ SentenceAware.chunk_text (py "a b c. ") 2 = [py ""; py "a b c."].
Proof. repeat split. Qed.

Lemma empty_chunk_only_first_witness :
  3 <= word_count (first_sentence (py "A b c. D. E f."))
  /\ head (SentenceAware.chunk_text (py "A b c. D. E f.") 3) = Some [].
Proof.
  split; [discriminate|].
  apply (empty_chunk_only_first (py "A b c. D. E f.") 3). discriminate.
Defined.

(* ===================================================================== *)
(** * The model-call wrappers *)
(* ===================================================================== *)

(** A call of [ask_gpt]: the call is recorded; the completion is returned,
    or the marker followed by the reason of the failure. *)
Lemma ask_gpt_run w prompt model s :
  ask_gpt w prompt model s =
  (Done (answer (responses_create w (length (calls s)) model prompt)),
   mkSt (session s) (ui s) (calls s ++ [(model, prompt)]) (visited s)).
Proof.
  unfold ask_gpt, try_except, client_responses_create. cbn zeta.
  destruct (responses_create w (length (calls s)) model prompt); reflexivity.
Qed.

(** The current extractor turns every failure of the model call into the
    marked string. *)
Lemma extract_events_from_chunk_catches w chunk metadata s cls msg :
  responses_create w (length (calls s)) (py "gpt-4.1-mini")
    (extraction_prompt chunk metadata) = Failure cls msg ->
  fst (extract_events_from_chunk w chunk metadata s) = Done (gpt_error_marker ++ msg).
Proof.
  intros H. unfold extract_events_from_chunk. now rewrite ask_gpt_run, H.
Qed.

(** The archived extractor has no handler: every failure of the model call
    is raised to the caller. *)
Lemma archive_extractor_propagates w chunk metadata s cls msg :
  responses_create w (length (calls s)) (py "gpt-4.1-mini")
    (Archive.extraction_prompt chunk metadata) = Failure cls msg ->
  fst (Archive.extract_events_from_chunk w chunk metadata s)
  = Raised (AnException cls msg).
Proof.
  intros H. unfold Archive.extract_events_from_chunk, client_responses_create.
  now rewrite H.
Qed.

(** C3, at a rate-limit error of the model call.  The extractor of
    [src/app_selenium_3.py] and [src/app.py] returns the marked string; the
    extractor of [src/archive/app_selenium_2.py] raises. *)
Theorem archived_extractor_raises :
  fst (extract_events_from_chunk quota_world (py "Fire at the depot.")
         depot_metadata fresh)
  = Done (py "[GPT Error] quota exceeded")
  /\ fst (Archive.extract_events_from_chunk quota_world (py "Fire at the depot.")
            depot_metadata fresh)
     = Raised RateLimitError.
Proof. split; reflexivity. Qed.

(** C4. When the model call of the merge step fails, the merge step returns
    the marker followed by the reason of the failure, and nothing else
    happens than the one call. *)
Theorem merge_failure_is_marked (w : World) (v : Variant) (events_list : str)
    (s : St) (cls msg : str) :
  responses_create w (length (calls s)) (py "gpt-4.1") (merge_prompt v events_list)
    = Failure cls msg ->
  merge_events_to_timeline w v events_list s =
  (Done (gpt_error_marker ++ msg),
   mkSt (session s) (ui s)
     (calls s ++ [(py "gpt-4.1", merge_prompt v events_list)]) (visited s)).
Proof.
  intros Hr. unfold merge_events_to_timeline. now rewrite ask_gpt_run, Hr.
Qed.

Lemma merge_failure_is_marked_witness :
  responses_create quota_world (length (calls fresh)) (py "gpt-4.1")
    (merge_prompt AppSelenium3 (py "- [Monday] Fire"))
  = Failure (py "RateLimitError") (py "quota exceeded")
  /\ fst (merge_events_to_timeline quota_world AppSelenium3 (py "- [Monday] Fire") fresh)
     = Done (py "[GPT Error] quota exceeded").
Proof.
  split; [reflexivity|].
  rewrite (merge_failure_is_marked quota_world AppSelenium3 (py "- [Monday] Fire")
             fresh (py "RateLimitError") (py "quota exceeded") eq_refl).
  reflexivity.
Defined.

(* ===================================================================== *)
(** * The end of the search handler: extraction and merge *)
(* ===================================================================== *)

(** The inner loop of the extraction: one call per chunk, one record per
    call, in order. *)
Lemma extract_chunks_run w metadata :
  forall chunks all_events s,
    extract_chunks w chunks metadata all_events s =
    (Done (all_events
           ++ expected_events w (length (calls s)) (map (fun c => (c, metadata)) chunks)),
     mkSt (session s) (ui s)
       (calls s ++ extraction_calls (map (fun c => (c, metadata)) chunks))
       (visited s)).
Proof.
  induction chunks as [|chunk rest IH]; intros all_events s; cbn [extract_chunks].
  - cbn. rewrite !app_nil_r. now destruct s.
  - unfold bind, extract_events_from_chunk. rewrite ask_gpt_run, IH.
    cbn [session ui calls visited map expected_events extraction_calls].
    rewrite length_app, Nat.add_1_r, <- !app_assoc. reflexivity.
Qed.

Lemma expected_events_app w work1 :
  forall k work2,
    expected_events w k (work1 ++ work2) =
    expected_events w k work1 ++ expected_events w (k + length work1) work2.
Proof.
  induction work1 as [|[c md] rest IH]; intros k work2; cbn [app expected_events length].
  - now rewrite Nat.add_0_r.
  - rewrite IH. now rewrite Nat.add_succ_comm.
Qed.

Lemma expected_events_length w work :
  forall k, length (expected_events w k work) = length work.
Proof.
  induction work as [|[c md] rest IH]; intros k; cbn [expected_events length];
    [reflexivity | now rewrite IH].
Qed.

Lemma chunk_text_default article :
  FixedWindow.chunk_text (content article) 300 = Ok (chunks_of article).
Proof.
  unfold chunks_of. now rewrite fixed_window_ok.
Qed.

(** The outer loop of the extraction: the work list, in order. *)
Lemma extract_articles_run w :
  forall articles all_events s,
    extract_articles w articles all_events s =
    (Done (all_events ++ expected_events w (length (calls s)) (work_list articles)),
     mkSt (session s) (ui s)
       (calls s ++ extraction_calls (work_list articles)) (visited s)).
Proof.
  induction articles as [|article rest IH]; intros all_events s;
    cbn [extract_articles].
  - cbn. rewrite !app_nil_r. now destruct s.
  - unfold bind at 1. rewrite chunk_text_default. cbn [lift ret].
    unfold bind at 1. rewrite extract_chunks_run, IH.
    cbn [session ui calls visited].
    unfold work_list. cbn [flat_map]. fold (work_list rest).
    unfold extraction_calls.
    rewrite expected_events_app, map_app, !length_app, !length_map, <- !app_assoc.
    reflexivity.
Qed.

Lemma extraction_calls_length work : length (extraction_calls work) = length work.
Proof. apply length_map. Qed.

(** A run of the end of the search handler. *)
Lemma extract_and_merge_run w v articles s :
  let work := work_list articles in
  let all_events := expected_events w (length (calls s)) work in
  let prompt := merge_prompt v (join nl all_events) in
  let r := responses_create w (length (calls s) + length work) (py "gpt-4.1") prompt in
  extract_and_merge w v articles s =
  (Done tt,
   mkSt (mkSession (Some (answer r)) (Some articles)
           (Some (py "")) (Some (py "")) (Some (py "")))
     (ui s
      ++ [UISubheader ([9203%N] ++ py " Extracting events from all articles...")]
      ++ timeline_page (answer r))
     (calls s ++ extraction_calls work ++ [(py "gpt-4.1", prompt)])
     (visited s)).
Proof.
  cbn zeta. unfold extract_and_merge. unfold bind at 1. cbn [show].
  unfold bind at 1. rewrite extract_articles_run.
  unfold bind at 1, merge_events_to_timeline. rewrite ask_gpt_run.
  cbn [session ui calls visited app].
  rewrite length_app, extraction_calls_length.
  cbv beta iota zeta delta
    [bind set_session show timeline_page set_timeline set_articles_data
     set_translated_timeline set_highlights set_comparison session ui calls
     visited timeline articles_data translated_timeline highlights comparison].
  rewrite <- !app_assoc. reflexivity.
Qed.

Lemma merge_calls_extraction work : merge_calls (extraction_calls work) = [].
Proof.
  unfold merge_calls, extraction_calls.
  induction work as [|cm rest IH]; [reflexivity|].
  cbn [map]. rewrite filter_cons_False; [exact IH|]. cbn [fst].
  intros H. apply (f_equal length) in H. vm_compute in H. discriminate.
Qed.

Lemma work_list_length articles :
  length (work_list articles) = length (concat (map chunks_of articles)).
Proof.
  unfold work_list. induction articles as [|a rest IH]; [reflexivity|].
  cbn [flat_map map concat]. now rewrite !length_app, length_map, IH.
Qed.

(* ===================================================================== *)
(** * Redirect resolution *)
(* ===================================================================== *)

(** When the driver is created and closed without an exception,
    [resolve_real_url] returns the URL the browser ended on, or the URL it
    was given when the navigation or the read of the current URL failed. *)
Lemma resolve_real_url_guarded (w : World) (google_url : str) :
  install (browser w google_url) = None ->
  launch (browser w google_url) = None ->
  quit (browser w google_url) = None ->
  exists u,
    resolve_real_url w google_url = Ok u
    /\ ((get (browser w google_url) = None
         /\ current_url (browser w google_url) = Ok u)
        \/ ((get (browser w google_url) <> None
             \/ exists e, current_url (browser w google_url) = Raise e)
            /\ u = google_url)).
Proof.
  intros Hi Hl Hq. unfold resolve_real_url. rewrite Hi, Hl, Hq.
  destruct (get (browser w google_url)) as [e|] eqn:Hg.
  - exists google_url. split; [reflexivity|]. right. split; [now left | reflexivity].
  - destruct (current_url (browser w google_url)) as [u | e] eqn:Hc.
    + exists u. split; [reflexivity|]. now left.
    + exists google_url. split; [reflexivity|]. right. split; [right; eauto | reflexivity].
Qed.

(** An exception of the creation of the driver, or of [driver.quit()], is
    raised to the caller. *)
Lemma resolve_real_url_propagates (w : World) (google_url : str) (e : PyExc) :
  install (browser w google_url) = Some e
  \/ (install (browser w google_url) = None /\ launch (browser w google_url) = Some e)
  \/ (install (browser w google_url) = None /\ launch (browser w google_url) = None
      /\ quit (browser w google_url) = Some e) ->
  resolve_real_url w google_url = Raise e.
Proof.
  unfold resolve_real_url.
  intros [-> | [[-> ->] | (-> & -> & ->)]]; reflexivity.
Qed.

(** C7, where Chrome's driver cannot be installed: the exception of
    [ChromeDriverManager().install()], raised before the [try], leaves
    [resolve_real_url], and the search handler ends with it before any
    article is read. *)
Theorem resolve_real_url_raises :
  resolve_real_url no_chrome_world (py "https://news.google.com/rss/articles/1")
  = Raise WebDriverException
  /\ fst (search_handler no_chrome_world (py "depot fire") fresh)
     = Raised WebDriverException.
Proof. split; reflexivity. Qed.

(* ===================================================================== *)
(** * The search handler *)
(* ===================================================================== *)

Lemma omap_article_cons w entry rest :
  omap (article_of w) (entry :: rest) =
  match article_of w entry with
  | Some article => article :: omap (article_of w) rest
  | None => omap (article_of w) rest
  end.
Proof. reflexivity. Qed.

Lemma omap_article_none w entries :
  (forall entry real_url,
      In entry entries ->
      resolve_real_url w (entry_link entry) = Ok real_url ->
      extract_text w real_url = None) ->
  omap (article_of w) entries = [].
Proof.
  induction entries as [|entry rest IH]; intros H; [reflexivity|].
  rewrite omap_article_cons.
  rewrite IH by (intros e u Hin; apply H; now right).
  unfold article_of.
  destruct (resolve_real_url w (entry_link entry)) as [real_url | e] eqn:Hr;
    [|reflexivity].
  now rewrite (H entry real_url (or_introl eq_refl) Hr).
Qed.

(** The article loop visits every entry it is given, keeps the articles
    whose text was extracted, in order, and ends early only when
    [resolve_real_url] raises. *)
Lemma fetch_articles_spec w :
  forall entries idx acc s,
    match fetch_articles w idx entries acc s with
    | (Done r, s') =>
        r = acc ++ omap (article_of w) entries
        /\ session s' = session s /\ calls s' = calls s
        /\ visited s' = visited s ++ map entry_link entries
        /\ exists page, ui s' = ui s ++ page
    | (Stopped, _) => False
    | (Raised e, s') =>
        (exists entry, In entry entries
                       /\ resolve_real_url w (entry_link entry) = Raise e)
        /\ session s' = session s /\ calls s' = calls s
        /\ exists k, visited s' = visited s ++ map entry_link (take k entries)
    end.
Proof.
  induction entries as [|entry rest IH]; intros idx acc s; cbn [fetch_articles].
  - cbn. rewrite !app_nil_r. repeat split. exists []. now rewrite app_nil_r.
  - unfold bind at 1. cbn [show]. unfold bind at 1. cbn [show].
    unfold bind at 1, call_resolve_real_url. cbn [session ui calls visited].
    rewrite omap_article_cons. unfold article_of at 1.
    destruct (resolve_real_url w (entry_link entry)) as [real_url | e] eqn:Hres.
    + unfold bind at 1. cbn [show]. unfold bind at 1. cbn [show].
      destruct (extract_text w real_url) as [text|] eqn:Hext.
      * unfold bind at 1. cbn [show session ui calls visited].
        match goal with
        | |- context [fetch_articles w ?i rest ?a ?st] =>
            specialize (IH i a st); destruct (fetch_articles w i rest a st)
              as [[r | | e] s']
        end; [|exact IH|].
        -- destruct IH as (-> & -> & -> & -> & page & ->).
           cbn [session calls visited ui map].
           rewrite <- !app_assoc. repeat split. eexists. reflexivity.
        -- destruct IH as ((entry' & Hin & He) & -> & -> & k & ->).
           split; [exists entry'; split; [now right | exact He]|].
           repeat split. exists (S k). cbn [session calls visited take map].
           now rewrite <- app_assoc.
      * unfold bind at 1. cbn [show session ui calls visited].
        match goal with
        | |- context [fetch_articles w ?i rest ?a ?st] =>
            specialize (IH i a st); destruct (fetch_articles w i rest a st)
              as [[r | | e] s']
        end; [|exact IH|].
        -- destruct IH as (-> & -> & -> & -> & page & ->).
           cbn [session calls visited ui map].
           rewrite <- !app_assoc. repeat split. eexists. reflexivity.
        -- destruct IH as ((entry' & Hin & He) & -> & -> & k & ->).
           split; [exists entry'; split; [now right | exact He]|].
           repeat split. exists (S k). cbn [session calls visited take map].
           now rewrite <- app_assoc.
    + cbn [session calls visited]. split; [exists entry; split; [now left | exact Hres]|].
      repeat split. now exists 1%nat.
Qed.

(** The search handler, for a query that is not blank: the article loop,
    then the extraction and the merge. *)
Lemma search_handler_run w query s :
  truthy (strip query) = true ->
  search_handler w query s =
  bind (fetch_articles w 0 (take 10 (search_google_news w query)) [])
       (extract_and_merge w AppSelenium3)
       (mkSt (session s)
          ((ui s ++ [UISpinner (py "Fetching Google News results...")])
           ++ [UISuccess (py "Found " ++ str_of_nat (length (search_google_news w query))
                          ++ py " articles.")])
          (calls s) (visited s)).
Proof.
  intros Hq. unfold search_handler. rewrite Hq.
  unfold bind at 1. cbn [ret]. unfold bind at 1. cbn [show].
  unfold bind at 1. cbn [show session ui calls visited]. reflexivity.
Qed.

(** A search whose browser sessions run: the articles, the calls, the
    session and the page at its end. *)
Lemma search_handler_done w query s :
  truthy (strip query) = true ->
  browser_runs w (take 10 (search_google_news w query)) = true ->
  let entries := take 10 (search_google_news w query) in
  let articles := omap (article_of w) entries in
  let work := work_list articles in
  let all_events := expected_events w (length (calls s)) work in
  let prompt := merge_prompt AppSelenium3 (join nl all_events) in
  let r := responses_create w (length (calls s) + length work) (py "gpt-4.1") prompt in
  exists page,
    search_handler w query s =
    (Done tt,
     mkSt (mkSession (Some (answer r)) (Some articles)
             (Some (py "")) (Some (py "")) (Some (py "")))
       (ui s ++ page ++ timeline_page (answer r))
       (calls s ++ extraction_calls work ++ [(py "gpt-4.1", prompt)])
       (visited s ++ map entry_link entries)).
Proof.
  intros Hq Hb. cbn zeta.
  rewrite (search_handler_run w query s Hq). unfold bind.
  match goal with
  | |- context [fetch_articles w 0 ?es [] ?st] =>
      pose proof (fetch_articles_spec w es 0 [] st) as Hf;
      destruct (fetch_articles w 0 es [] st) as [[articles | | e] s1]
  end; [|contradiction|].
  - destruct Hf as (-> & Hs1 & Hc1 & Hv1 & page & Hui).
    cbn [app session ui calls visited] in *.
    rewrite extract_and_merge_run. cbn zeta. rewrite Hc1, Hv1, Hui.
    exists ([UISpinner (py "Fetching Google News results...");
             UISuccess (py "Found " ++ str_of_nat (length (search_google_news w query))
                        ++ py " articles.")]
            ++ page
            ++ [UISubheader ([9203%N] ++ py " Extracting events from all articles...")]).
    rewrite <- !app_assoc. reflexivity.
  - exfalso. destruct Hf as ((entry & Hin & He) & _).
    unfold browser_runs in Hb. rewrite forallb_forall in Hb.
    specialize (Hb entry Hin). now rewrite He in Hb.
Qed.

(** C5. The merge step is invoked exactly once in a run: the calls of the
    end of the search handler are one extraction call per chunk of every
    article, in article order then chunk order, followed by the one merge
    call, whose input is the newline-join of the records that the
    extraction calls returned; and these are the calls of a whole search
    over the articles it extracted. *)
Theorem merge_once_over_all_events (w : World) (v : Variant)
    (articles : list Article) (s : St) :
  let work := work_list articles in
  let all_events := expected_events w (length (calls s)) work in
  let merge_call := (py "gpt-4.1", merge_prompt v (join nl all_events)) in
  (fst (extract_and_merge w v articles s) = Done tt
   /\ calls (snd (extract_and_merge w v articles s))
      = calls s ++ extraction_calls work ++ [merge_call]
   /\ merge_calls (extraction_calls work ++ [merge_call]) = [merge_call]
   /\ length all_events = length work
   /\ length work = length (concat (map chunks_of articles)))
  /\ (forall query,
         truthy (strip query) = true ->
         browser_runs w (take 10 (search_google_news w query)) = true ->
         articles = omap (article_of w) (take 10 (search_google_news w query)) ->
         fst (search_handler w query s) = Done tt
         /\ calls (snd (search_handler w query s))
            = calls s ++ extraction_calls work
              ++ [(py "gpt-4.1", merge_prompt AppSelenium3 (join nl all_events))]).
Proof.
  cbn zeta. split.
  - rewrite extract_and_merge_run. cbn [fst snd calls]. repeat split.
    + unfold merge_calls. rewrite filter_app.
      fold (merge_calls (extraction_calls (work_list articles))).
      rewrite merge_calls_extraction. reflexivity.
    + apply expected_events_length.
    + apply work_list_length.
  - intros query Hq Hb ->.
    destruct (search_handler_done w query s Hq Hb) as [page ->].
    cbn [fst snd calls]. now split.
Qed.

Lemma merge_once_over_all_events_witness :
  truthy (strip (py "depot fire")) = true
  /\ browser_runs twelve_world (take 10 (search_google_news twelve_world (py "depot fire")))
     = true
  /\ fst (search_handler twelve_world (py "depot fire") fresh) = Done tt.
Proof.
  split; [reflexivity|]. split; [reflexivity|].
  apply (proj2 (merge_once_over_all_events twelve_world AppSelenium3
                  (omap (article_of twelve_world)
                     (take 10 (search_google_news twelve_world (py "depot fire"))))
                  fresh) (py "depot fire")); reflexivity.
Defined.

(** C8. A search visits the first ten entries of the feed and no other.
    An entry whose text cannot be extracted is left out and the loop goes
    on with the next entry: the stored articles are exactly the articles
    of the visited entries whose text was extracted, in order.  The run is
    never ended by a failed extraction: it is ended only by an exception of
    [resolve_real_url]. *)
Theorem search_caps_and_skips (w : World) (query : str) (s : St) :
  truthy (strip query) = true ->
  let entries := take 10 (search_google_news w query) in
  let out := fst (search_handler w query s) in
  let s' := snd (search_handler w query s) in
  (length entries <= 10)%nat
  /\ (length (visited s') <= length (visited s) + 10)%nat
  /\ match out with
     | Done _ =>
         articles_data (session s') = Some (omap (article_of w) entries)
         /\ visited s' = visited s ++ map entry_link entries
     | Stopped => False
     | Raised e =>
         exists entry, In entry entries
                       /\ resolve_real_url w (entry_link entry) = Raise e
     end
  /\ (browser_runs w entries = true -> out = Done tt).
Proof.
  intros Hq. cbn zeta.
  assert (Hlen : (length (take 10 (search_google_news w query)) <= 10)%nat)
    by (rewrite length_take; lia).
  split; [exact Hlen|].
  rewrite (search_handler_run w query s Hq). unfold bind.
  match goal with
  | |- context [fetch_articles w 0 ?es [] ?st] =>
      pose proof (fetch_articles_spec w es 0 [] st) as Hf;
      destruct (fetch_articles w 0 es [] st) as [[articles | | e] s1]
  end; [|contradiction|].
  - destruct Hf as (-> & Hs1 & Hc1 & Hv1 & _). cbn [app session ui calls visited] in *.
    rewrite extract_and_merge_run. cbn zeta.
    cbn [fst snd session articles_data visited].
    split; [rewrite Hv1, length_app, length_map; lia|].
    split; [split; [reflexivity | exact Hv1] | reflexivity].
  - cbn [fst snd]. destruct Hf as ((entry & Hin & He) & _ & _ & k & Hv).
    cbn [visited] in Hv. split; [|split].
    + rewrite Hv, length_app, length_map, length_take. lia.
    + eauto.
    + intros Hb. unfold browser_runs in Hb. rewrite forallb_forall in Hb.
      specialize (Hb entry Hin). now rewrite He in Hb.
Qed.

Lemma search_caps_and_skips_witness :
  truthy (strip (py "depot fire")) = true
  /\ (length (take 10 (search_google_news twelve_world (py "depot fire"))) <= 10)%nat.
Proof.
  split; [reflexivity|].
  exact (proj1 (search_caps_and_skips twelve_world (py "depot fire") fresh eq_refl)).
Defined.

(** Twelve entries, the second one without text: ten are visited, nine
    articles are stored, nine extraction calls and one merge call are
    made. *)
Example twelve_entries :
  let s' := snd (search_handler twelve_world (py "depot fire") fresh) in
  length (visited s') = 10%nat
  /\ option_map (@length Article) (articles_data (session s')) = Some 9%nat
  /\ length (calls s') = 10%nat.
Proof. vm_compute. repeat split. Qed.

(** C1, as the code has it.  When no visited entry yields extractable text
    the search handler still invokes the merge step, once, on the empty
    string; the run reaches its end, what [ask_gpt] returned is stored as
    the timeline next to the empty list of articles, and the page ends with
    the announcement of the timeline.  The end of the handler does the
    same in both variants whenever the list of articles is empty. *)
Theorem no_articles_still_merged (w : World) (query : str) (s : St) :
  let entries := take 10 (search_google_news w query) in
  let merge_call := (py "gpt-4.1", merge_prompt AppSelenium3 (py "")) in
  let r := responses_create w (length (calls s)) (py "gpt-4.1")
             (merge_prompt AppSelenium3 (py "")) in
  let s' := snd (search_handler w query s) in
  (truthy (strip query) = true ->
   browser_runs w entries = true ->
   (forall entry real_url,
       In entry entries ->
       resolve_real_url w (entry_link entry) = Ok real_url ->
       extract_text w real_url = None) ->
   fst (search_handler w query s) = Done tt
   /\ calls s' = calls s ++ [merge_call]
   /\ timeline (session s') = Some (answer r)
   /\ articles_data (session s') = Some []
   /\ exists page, ui s' = ui s ++ page ++ timeline_page (answer r))
  /\ (forall v s1,
         let r1 := responses_create w (length (calls s1)) (py "gpt-4.1")
                     (merge_prompt v (py "")) in
         extract_and_merge w v [] s1 =
         (Done tt,
          mkSt (mkSession (Some (answer r1)) (Some []) (Some (py "")) (Some (py ""))
                  (Some (py "")))
            (ui s1
             ++ [UISubheader ([9203%N] ++ py " Extracting events from all articles...")]
             ++ timeline_page (answer r1))
            (calls s1 ++ [(py "gpt-4.1", merge_prompt v (py ""))])
            (visited s1))).
Proof.
  cbn zeta. split.
  - intros Hq Hb Hnone.
    destruct (search_handler_done w query s Hq Hb) as [page ->].
    cbn zeta. rewrite (omap_article_none w _ Hnone).
    change (work_list []) with (@nil (str * Metadata)).
    cbn [fst snd session calls ui timeline articles_data expected_events
         extraction_calls map app length join].
    rewrite Nat.add_0_r. repeat split. now exists page.
  - intros v s1. rewrite extract_and_merge_run. cbn zeta.
    change (work_list []) with (@nil (str * Metadata)).
    cbn [expected_events extraction_calls map app length join].
    rewrite Nat.add_0_r. reflexivity.
Qed.

Lemma no_articles_still_merged_witness :
  truthy (strip (py "depot fire")) = true
  /\ browser_runs paywalled_world
       (take 10 (search_google_news paywalled_world (py "depot fire"))) = true
  /\ calls (snd (search_handler paywalled_world (py "depot fire") fresh))
     = calls fresh ++ [(py "gpt-4.1", merge_prompt AppSelenium3 (py ""))].
Proof.
  split; [reflexivity|]. split; [reflexivity|].
  apply (no_articles_still_merged paywalled_world (py "depot fire") fresh).
  - reflexivity.
  - reflexivity.
  - intros entry real_url _ _. reflexivity.
Defined.

(** C1, at a search whose only article has no extractable text.  The run
    reaches its end, the merge step is invoked on the empty string, and the
    page announces the timeline that the model returned for it. *)
Lemma zero_articles_merge_invoked :
  let r := script paywalled_world (search_inputs "depot fire") fresh in
  fst r = Done tt
  /\ articles_data (session (snd r)) = Some []
  /\ calls (snd r) = [(py "gpt-4.1", merge_prompt AppSelenium3 (py ""))]
  /\ timeline (session (snd r)) = Some (py "No events were provided.")
  /\ In (UISuccess (py "Timeline generated!")) (ui (snd r))
  /\ In (UIWarning (py "Could not extract content.")) (ui (snd r)).
Proof. vm_compute. repeat split; tauto. Qed.

(* ===================================================================== *)
(** * The derived operations *)
(* ===================================================================== *)

Section Frame.

Context (R : Session -> Session -> Prop) `{!PreOrder R}.

Lemma frame_ret {A} (a : A) : frame R (ret a).
Proof. intros s. reflexivity. Qed.

Lemma frame_bind {A B} (m : Run A) (k : A -> Run B) :
  frame R m -> (forall a, frame R (k a)) -> frame R (bind m k).
Proof.
  intros Hm Hk s. unfold bind. specialize (Hm s).
  destruct (m s) as [[a | | e] s1]; cbn [snd] in *; [|exact Hm..].
  etransitivity; [exact Hm | apply Hk].
Qed.

Lemma frame_show e : frame R (show e).
Proof. intros s. reflexivity. Qed.

Lemma frame_stop {A} : frame R (@st_stop A).
Proof. intros s. reflexivity. Qed.

Lemma frame_raise {A} e : frame R (@raise A e).
Proof. intros s. reflexivity. Qed.

Lemma frame_get_session : frame R get_session.
Proof. intros s. reflexivity. Qed.

Lemma frame_session_item {A} key (field : Session -> option A) :
  frame R (session_item key field).
Proof.
  apply frame_bind; [apply frame_get_session|].
  intros ss. destruct (field ss); [apply frame_ret | apply frame_raise].
Qed.

Lemma frame_set_session f : (forall ss, R ss (f ss)) -> frame R (set_session f).
Proof. intros Hf s. apply Hf. Qed.

(** A model call writes no session key. *)
Lemma frame_ask_gpt w prompt model : frame R (ask_gpt w prompt model).
Proof. intros s. rewrite ask_gpt_run. reflexivity. Qed.

Lemma frame_show_artifact heading field : frame R (show_artifact heading field).
Proof.
  apply frame_bind; [apply frame_get_session|]. intros ss.
  destruct (get_truthy (field ss)); [|apply frame_ret].
  apply frame_bind; [destruct heading; [apply frame_show | apply frame_ret]|].
  intros _. apply frame_bind; [apply frame_show|]. intros _. apply frame_show.
Qed.

(** The script without a search writes what its three handlers write. *)
Lemma frame_script w inp :
  search_btn inp = false ->
  (translate_btn inp = true -> forall v ss, R ss (set_translated_timeline v ss)) ->
  (highlights_btn inp = true -> forall v ss, R ss (set_highlights v ss)) ->
  (compare_btn inp = true -> forall v ss, R ss (set_comparison v ss)) ->
  frame R (script w inp).
Proof.
  intros Hs Ht Hh Hc. unfold script. rewrite Hs.
  repeat (apply frame_bind; [first [apply frame_show | apply frame_ret] | intros _]).
  apply frame_bind; [apply frame_get_session | intros ss].
  apply frame_bind.
  { destruct (timeline ss); [apply frame_ret|].
    apply frame_bind; [apply frame_show | intros _; apply frame_stop]. }
  intros _. apply frame_bind; [apply frame_show | intros _].
  apply frame_bind.
  { destruct (translate_btn inp); [|apply frame_ret]. unfold translate_handler.
    apply frame_bind; [apply frame_show | intros _].
    apply frame_bind; [apply frame_session_item | intros tl].
    apply frame_bind; [apply frame_ask_gpt | intros result].
    apply frame_bind; [apply frame_set_session, Ht; reflexivity | intros _].
    apply frame_show. }
  intros _. apply frame_bind; [apply frame_show_artifact | intros _].
  apply frame_bind; [apply frame_show | intros _].
  apply frame_bind.
  { destruct (highlights_btn inp); [|apply frame_ret]. unfold highlights_handler.
    apply frame_bind; [apply frame_show | intros _].
    apply frame_bind; [apply frame_session_item | intros tl].
    apply frame_bind; [apply frame_ask_gpt | intros result].
    apply frame_bind; [apply frame_set_session, Hh; reflexivity | intros _].
    apply frame_show. }
  intros _. apply frame_bind; [apply frame_show_artifact | intros _].
  apply frame_bind; [apply frame_show | intros _].
  apply frame_bind.
  { destruct (compare_btn inp); [|apply frame_ret]. unfold compare_handler.
    apply frame_bind; [apply frame_show | intros _].
    apply frame_bind; [apply frame_session_item | intros tl].
    apply frame_bind; [apply frame_ask_gpt | intros result].
    apply frame_bind; [apply frame_set_session, Hc; reflexivity | intros _].
    apply frame_show. }
  intros _. apply frame_bind; [apply frame_show_artifact | intros _].
  apply frame_bind; [apply frame_session_item | intros tl]. apply frame_show.
Qed.

End Frame.

#[local] Instance same_stored_preorder : PreOrder same_stored.
Proof.
  split.
  - intros ss. now split.
  - intros a b c [H1 H2] [H3 H4]. split; congruence.
Qed.

#[local] Instance same_others_preorder op : PreOrder (same_others op).
Proof.
  split.
  - intros ss. destruct op; now split.
  - intros a b c. destruct op; intros [H1 H2] [H3 H4]; split; congruence.
Qed.

(** A run of the script without a search keeps the stored timeline and the
    stored articles. *)
Lemma rerun_same_stored w inp ss :
  search_btn inp = false -> same_stored ss (rerun w inp ss).
Proof.
  intros Hs. unfold rerun.
  apply (frame_script same_stored w inp Hs); intros _ v ss'; now split.
Qed.

Lemma rerun_same_others w op ss : same_others op ss (rerun w (inputs_of op) ss).
Proof.
  unfold rerun.
  apply (frame_script (same_others op) w (inputs_of op));
    destruct op; cbn; try discriminate; try reflexivity;
    intros _ v ss'; now split.
Qed.

(** C9. The derived operations leave what they read as it is stored: after
    any sequence of translate (in any languages), highlights and compare,
    each in a world of its own, the stored timeline and the stored articles
    are the ones from before; and one operation writes no derived artifact
    but its own. *)
Theorem derived_ops_frame (ops : list (World * DerivedOp)) (w : World)
    (op : DerivedOp) (ss : Session) :
  same_stored ss (run_ops ops ss)
  /\ same_stored ss (rerun w (inputs_of op) ss)
  /\ same_others op ss (rerun w (inputs_of op) ss).
Proof.
  split; [|split].
  - unfold run_ops. revert ss.
    induction ops as [|[w' op'] rest IH]; intros ss; cbn [fold_left fst snd].
    + reflexivity.
    + etransitivity; [|apply IH].
      apply rerun_same_stored. now destruct op'.
  - apply rerun_same_stored. now destruct op.
  - apply rerun_same_others.
Qed.


(* ===================================================================== *)
(** * The shape of the fixed-window chunks *)
(* ===================================================================== *)

(** The windows that [range] enumerates: each has between one and [n]
    elements, each but the last has [n], and there are [ceil (len / n)] of
    them. *)
Lemma range_up_windows {A} (l : list A) (n : nat) :
  (0 < n)%nat ->
  forall fuel i,
    (length l - i <= fuel)%nat ->
    let ws := map (fun i => take n (drop i l)) (range_up fuel i (length l) n) in
    Forall (fun x => (1 <= length x <= n)%nat) ws
    /\ (forall j x, ws !! j = Some x -> (S j < length ws)%nat -> length x = n)
    /\ length ws = ((length l - i + n - 1) / n)%nat.
Proof.
  intros Hn. cbn zeta. induction fuel as [|fuel IH]; intros i Hi; cbn [range_up].
  - cbn [map length]. split; [constructor|]. split; [intros j x H; discriminate|].
    replace (length l - i)%nat with 0%nat by lia. symmetry. apply Nat.div_small. lia.
  - destruct (Nat.ltb_spec i (length l)) as [Hlt | Hge].
    + cbn [map]. destruct (IH (i + n)%nat ltac:(lia)) as (H1 & H2 & H3).
      assert (Hfirst : length (take n (drop i l)) = Nat.min n (length l - i))
        by now rewrite length_take, length_drop.
      split; [constructor; [lia | exact H1]|]. split.
      * intros [|j] x Hx Hj; cbn in Hx.
        -- injection Hx as <-. cbn [length] in Hj. rewrite H3 in Hj.
           assert (length l - (i + n) <> 0)%nat; [|lia].
           intros H0. rewrite H0 in Hj. rewrite Nat.div_small in Hj by lia. lia.
        -- apply (H2 j x Hx). cbn [length] in Hj. lia.
      * cbn [length]. rewrite H3.
        destruct (Nat.le_gt_cases n (length l - i)) as [Hle | Hgt].
        -- replace (length l - i + n - 1)%nat
             with ((length l - (i + n) + n - 1) + 1 * n)%nat by lia.
           rewrite Nat.div_add by lia. lia.
        -- replace (length l - (i + n))%nat with 0%nat by lia.
           replace (length l - i + n - 1)%nat
             with ((length l - i - 1) + 1 * n)%nat by lia.
           rewrite Nat.div_add by lia.
           rewrite !Nat.div_small by lia. lia.
    + cbn [map length]. split; [constructor|]. split; [intros j x H; discriminate|].
      replace (length l - i)%nat with 0%nat by lia. symmetry. apply Nat.div_small. lia.
Qed.

Lemma fixed_window_count text max_words :
  0 < max_words ->
  exists chunks,
    FixedWindow.chunk_text text max_words = Ok chunks
    /\ Forall (fun c => 1 <= word_count c <= max_words) chunks
    /\ (forall i c, chunks !! i = Some c -> (S i < length chunks)%nat ->
                    word_count c = max_words)
    /\ Z.of_nat (length chunks) = (word_count text + max_words - 1) / max_words.
Proof.
  intros Hn. eexists. split; [now apply fixed_window_ok|].
  destruct (range_up_windows (split text) (Z.to_nat max_words) ltac:(lia)
              (length (split text)) 0%nat ltac:(lia)) as (H1 & H2 & H3).
  set (idx := range_up _ _ _ _) in *.
  assert (Hwc : forall i, word_count (join (py " ") (slice (split text) i max_words))
                          = Z.of_nat (length (take (Z.to_nat max_words)
                                                   (drop i (split text))))).
  { intros i. unfold word_count. now rewrite split_join by apply slice_words. }
  split; [|split].
  - apply Forall_map, Forall_forall. intros i Hi. rewrite Hwc.
    rewrite Forall_map, Forall_forall in H1. specialize (H1 i Hi). cbn beta in H1. lia.
  - intros i c Hc Hlen. rewrite length_map in Hlen.
    rewrite list_lookup_fmap in Hc.
    destruct (idx !! i) as [j|] eqn:Hj; [|discriminate]. injection Hc as <-.
    rewrite Hwc. rewrite (H2 i (take (Z.to_nat max_words) (drop j (split text)))); [lia| |].
    + rewrite list_lookup_fmap, Hj. reflexivity.
    + now rewrite length_map.
  - rewrite length_map in *. rewrite H3. unfold word_count.
    rewrite Nat.sub_0_r.
    rewrite Nat2Z.inj_div. f_equal; lia.
Qed.

(** X1. For a positive bound the fixed-window chunker returns chunks that
    each have at least one word and at most [max_words] words; every chunk
    but the last has exactly [max_words] words; and the number of chunks is
    the number of words of the text divided by [max_words], rounded up. *)
Theorem fixed_window_shape (text : str) (max_words : Z) :
  0 < max_words ->
  exists chunks,
    FixedWindow.chunk_text text max_words = Ok chunks
    /\ Forall (fun c => 1 <= word_count c <= max_words) chunks
    /\ (forall i c, chunks !! i = Some c -> (S i < length chunks)%nat ->
                    word_count c = max_words)
    /\ Z.of_nat (length chunks) = (word_count text + max_words - 1) / max_words.
Proof. apply fixed_window_count. Qed.

Lemma fixed_window_shape_witness :
  0 < 2
  /\ exists chunks,
       FixedWindow.chunk_text (py "a b  c d e") 2 = Ok chunks
       /\ Forall (fun c => 1 <= word_count c <= 2) chunks
       /\ (forall i c, chunks !! i = Some c -> (S i < length chunks)%nat ->
                       word_count c = 2)
       /\ Z.of_nat (length chunks) = (word_count (py "a b  c d e") + 2 - 1) / 2.
Proof.
  split; [lia | apply (fixed_window_shape (py "a b  c d e") 2); lia].
Defined.

(** A list of at most [n] elements, not empty, is one window. *)
Lemma range_up_single k n :
  (0 < k <= n)%nat -> range_up k 0 k n = [0%nat].
Proof.
  intros Hk. destruct k as [|k']; [lia|]. cbn [range_up].
  destruct (Nat.ltb_spec 0 (S k')); [|lia]. f_equal.
  destruct k' as [|k'']; [reflexivity|]. cbn [range_up].
  destruct (Nat.ltb_spec (0 + n) (S (S k''))); [lia | reflexivity].
Qed.

Lemma fixed_window_one ws max_words :
  Forall is_word ws -> ws <> [] -> Z.of_nat (length ws) <= max_words ->
  FixedWindow.chunk_text (join (py " ") ws) max_words = Ok [join (py " ") ws].
Proof.
  intros Hws Hne Hlen.
  assert (0 < length ws)%nat by (destruct ws; [congruence | cbn; lia]).
  rewrite fixed_window_ok by lia. rewrite split_join by assumption.
  rewrite range_up_single by lia. cbn [map]. unfold slice.
  rewrite drop_0, take_ge by lia. reflexivity.
Qed.

(** X2. Every chunk that the fixed-window chunker returns is normalised:
    it is its own words joined by single spaces; and chunking a chunk
    again, with the same bound, gives that chunk alone. *)
Theorem fixed_window_chunks_stable (text : str) (max_words : Z) (chunks : list str) :
  FixedWindow.chunk_text text max_words = Ok chunks ->
  Forall (fun c => join (py " ") (split c) = c
                   /\ FixedWindow.chunk_text c max_words = Ok [c]) chunks.
Proof.
  unfold FixedWindow.chunk_text at 1. unfold range.
  destruct (Z.eqb_spec max_words 0); [discriminate|].
  destruct (Z.ltb_spec max_words 0); intros [= <-]; [constructor|].
  apply Forall_map. eapply Forall_impl; [apply range_up_below|].
  intros i Hi. cbn beta in *.
  pose proof (slice_words text i max_words) as Hw.
  assert (Hlen : (0 < length (slice (split text) i max_words) <= Z.to_nat max_words)%nat).
  { unfold slice. rewrite length_take, length_drop. lia. }
  split.
  - now rewrite split_join.
  - apply fixed_window_one; [assumption| |lia].
    intros H0. rewrite H0 in Hlen. cbn in Hlen. lia.
Qed.

Lemma fixed_window_chunks_stable_witness :
  FixedWindow.chunk_text (py " a  b c") 2 = Ok [py "a b"; py "c"]
  /\ Forall (fun c => join (py " ") (split c) = c
                      /\ FixedWindow.chunk_text c 2 = Ok [c]) [py "a b"; py "c"].
Proof.
  split; [reflexivity|].
  apply (fixed_window_chunks_stable (py " a  b c") 2). reflexivity.
Defined.

(** X3. The fixed-window chunker at a bound that is not positive: a bound
    of zero raises the [ValueError] of [range], for every text, the empty
    one included; a negative bound returns no chunk, whatever the text. *)
Theorem fixed_window_nonpositive_bound (text : str) (max_words : Z) :
  max_words <= 0 ->
  FixedWindow.chunk_text text max_words =
  if max_words =? 0 then Raise (ValueError "range() arg 3 must not be zero") else Ok [].
Proof.
  intros H. unfold FixedWindow.chunk_text, range.
  destruct (Z.eqb_spec max_words 0); [reflexivity|].
  destruct (Z.ltb_spec max_words 0); [reflexivity | lia].
Qed.

Lemma fixed_window_nonpositive_bound_witness :
  -1 <= 0
  /\ FixedWindow.chunk_text (py "a b c") (-1) =
     if -1 =? 0 then Raise (ValueError "range() arg 3 must not be zero") else Ok [].
Proof.
  split; [lia | apply (fixed_window_nonpositive_bound (py "a b c") (-1)); lia].
Defined.

(* ===================================================================== *)
(** * The groups of the sentence-aware chunker *)
(* ===================================================================== *)

Lemma word_count_nonneg s : 0 <= word_count s.
Proof. unfold word_count. lia. Qed.

(** With a bound that is not positive every sentence is flushed. *)
Lemma loop_all_flush max_words :
  max_words <= 0 ->
  forall sentences chunks current,
    sentences <> [] ->
    SentenceAware.loop max_words sentences (chunks, current) =
    (chunks ++ strip current :: map strip (List.removelast sentences),
     List.last sentences []).
Proof.
  intros Hn. unfold SentenceAware.loop.
  induction sentences as [|s ss IH]; intros chunks current Hne; [congruence|].
  cbn [fold_left]. unfold SentenceAware.step at 2.
  pose proof (word_count_nonneg (current ++ s)).
  destruct (Z.ltb_spec (word_count (current ++ s)) max_words); [lia|].
  destruct ss as [|s' ss']; [reflexivity|].
  rewrite IH by discriminate. rewrite <- app_assoc. reflexivity.
Qed.

(** X4. The sentence-aware chunker at a bound that is not positive: the
    first chunk is the empty string, and after it every sentence of the
    text is a chunk of its own, stripped; the last sentence is left out
    when it has no word. *)
Theorem sentence_aware_nonpositive_bound (text : str) (max_words : Z) :
  max_words <= 0 ->
  SentenceAware.chunk_text text max_words =
  [] :: map strip (List.removelast (re_split_sentences text))
     ++ (if truthy (strip (List.last (re_split_sentences text) []))
         then [strip (List.last (re_split_sentences text) [])] else []).
Proof.
  intros Hn. unfold SentenceAware.chunk_text.
  rewrite loop_all_flush by (assumption || apply re_split_from_nonempty).
  cbn [app]. change (strip []) with (@nil N).
  destruct (truthy _); [|now rewrite app_nil_r].
  reflexivity.
Qed.

Lemma sentence_aware_nonpositive_bound_witness :
  0 <= 0
  /\ SentenceAware.chunk_text (py "A b.  C d! ") 0 =
     [] :: map strip (List.removelast (re_split_sentences (py "A b.  C d! ")))
        ++ (if truthy (strip (List.last (re_split_sentences (py "A b.  C d! ")) []))
            then [strip (List.last (re_split_sentences (py "A b.  C d! ")) [])] else []).
Proof.
  split; [lia | apply (sentence_aware_nonpositive_bound (py "A b.  C d! ") 0); lia].
Defined.

(** Gluing two texts adds no word. *)
Lemma split_length_app_le a b :
  (length (split (a ++ b)) <= length (split a) + length (split b))%nat.
Proof.
  induction a as [|x a IH]; [cbn; lia|].
  rewrite <- app_comm_cons, !split_eq.
  destruct (isspace x) eqn:Hx; [exact IH|].
  destruct a as [|y a'].
  - cbn [app length]. destruct b as [|z b']; [cbn; lia|].
    destruct (isspace z) eqn:Hz; [cbn [length]; lia|].
    rewrite push_char_length by now apply split_cons_nonspace. lia.
  - rewrite <- app_comm_cons in *.
    destruct (isspace y) eqn:Hy; [cbn [length]; lia|].
    rewrite !push_char_length; [exact IH| |]; now apply split_cons_nonspace.
Qed.

Lemma join_snoc sep (g : list str) s :
  g <> [] -> join sep (g ++ [s]) = join sep g ++ sep ++ s.
Proof.
  induction g as [|x g IH]; [congruence|]. intros _.
  destruct g as [|y g']; [reflexivity|].
  change (join sep ((x :: y :: g') ++ [s])) with (x ++ sep ++ join sep ((y :: g') ++ [s])).
  rewrite IH by discriminate.
  change (join sep (x :: y :: g')) with (x ++ sep ++ join sep (y :: g')).
  now rewrite <- !app_assoc.
Qed.

Lemma strip_sp s : strip (py " " ++ s) = strip s.
Proof. reflexivity. Qed.

Lemma glued_strip current g : glued current g -> strip current = strip (join (py " ") g).
Proof. intros [-> | [_ ->]]; [reflexivity | apply strip_sp]. Qed.

(** The loop cuts the sentences into groups: every chunk is a group of
    consecutive sentences, and the accumulator is the group in progress. *)
Lemma loop_groups max_words :
  forall sentences chunks current gs g,
    chunks = map (fun g => strip (join (py " ") g)) gs ->
    glued current g ->
    exists gs' g',
      concat gs' ++ g' = (concat gs ++ g) ++ sentences
      /\ fst (SentenceAware.loop max_words sentences (chunks, current))
         = map (fun g => strip (join (py " ") g)) gs'
      /\ glued (snd (SentenceAware.loop max_words sentences (chunks, current))) g'.
Proof.
  unfold SentenceAware.loop.
  induction sentences as [|s ss IH]; intros chunks current gs g Hc Hg; cbn [fold_left].
  - exists gs, g. now rewrite app_nil_r.
  - unfold SentenceAware.step at 2 4.
    destruct (word_count (current ++ s) <? max_words).
    + destruct (IH chunks (current ++ py " " ++ s) gs (g ++ [s]) Hc) as (gs' & g' & H1 & H2).
      { destruct g as [|x g0].
        - destruct Hg as [-> | [Hne _]]; [|congruence]. right. split; [discriminate|].
          reflexivity.
        - destruct Hg as [-> | [_ ->]].
          + left. now rewrite join_snoc.
          + right. split; [discriminate|]. rewrite join_snoc by discriminate.
            now rewrite <- !app_assoc. }
      exists gs', g'. split; [|exact H2]. rewrite H1. now rewrite <- !app_assoc.
    + destruct (IH (chunks ++ [strip current]) s (gs ++ [g]) [s]) as (gs' & g' & H1 & H2).
      { rewrite map_app, Hc. cbn [map]. now rewrite (glued_strip current g). }
      { now left. }
      exists gs', g'. split; [|exact H2]. rewrite H1, concat_app. cbn [concat].
      now rewrite app_nil_r, <- !app_assoc.
Qed.

(** X5. The sentence-aware chunker never cuts inside a sentence: the
    sentences of the text, in order, fall into consecutive groups, and the
    chunks are exactly the groups, each one its sentences joined by single
    spaces and stripped; only sentences without a word, at the end of the
    text, belong to no chunk. *)
Theorem sentence_aware_whole_sentences (text : str) (max_words : Z) :
  exists (groups : list (list str)) (rest : list str),
    concat groups ++ rest = re_split_sentences text
    /\ SentenceAware.chunk_text text max_words
       = map (fun g => strip (join (py " ") g)) groups
    /\ words_of_chunks rest = [].
Proof.
  unfold SentenceAware.chunk_text.
  destruct (loop_groups max_words (re_split_sentences text) [] [] [] [] eq_refl
              (or_introl eq_refl)) as (gs & g & H1 & H2 & H3).
  destruct (SentenceAware.loop max_words (re_split_sentences text) ([], []))
    as [chunks current].
  cbn [fst snd concat app] in *. subst chunks.
  destruct (truthy (strip current)) eqn:Ht.
  - exists (gs ++ [g]), []. rewrite concat_app, map_app. cbn [concat map].
    rewrite !app_nil_r. rewrite (glued_strip current g H3). auto.
  - exists gs, g. repeat split; [assumption|].
    rewrite <- words_of_chunks_join, <- split_strip, <- (glued_strip current g H3).
    rewrite split_strip. now apply truthy_strip.
Qed.

(** While the words read so far and the words to come stay under the
    bound, the loop flushes nothing. *)
Lemma loop_no_flush max_words :
  forall sentences chunks current,
    Z.of_nat (length (split current) + length (words_of_chunks sentences)) < max_words ->
    SentenceAware.loop max_words sentences (chunks, current)
    = (chunks, fold_left (fun c s => c ++ py " " ++ s) sentences current).
Proof.
  unfold SentenceAware.loop.
  induction sentences as [|s ss IH]; intros chunks current Hn; [reflexivity|].
  cbn [fold_left]. unfold SentenceAware.step at 2.
  unfold words_of_chunks in Hn. cbn [map concat] in Hn. rewrite length_app in Hn.
  pose proof (split_length_app_le current s).
  destruct (Z.ltb_spec (word_count (current ++ s)) max_words) as [_ | Hge];
    [|unfold word_count in Hge; lia].
  apply IH. rewrite split_app_sp, length_app. unfold words_of_chunks. lia.
Qed.

Lemma fold_glue sentences :
  forall current,
    sentences <> [] ->
    fold_left (fun c s => c ++ py " " ++ s) sentences current
    = current ++ py " " ++ join (py " ") sentences.
Proof.
  induction sentences as [|s ss IH]; intros current Hne; [congruence|].
  cbn [fold_left]. destruct ss as [|s' ss']; [reflexivity|].
  rewrite IH by discriminate.
  change (join (py " ") (s :: s' :: ss')) with (s ++ py " " ++ join (py " ") (s' :: ss')).
  now rewrite <- !app_assoc.
Qed.

(** X6. A text with fewer words than the bound is never cut by the
    sentence-aware chunker: it gives no chunk when it has no word, and
    otherwise one chunk, its sentences joined by single spaces and
    stripped. *)
Theorem sentence_aware_short_text (text : str) (max_words : Z) :
  word_count text < max_words ->
  SentenceAware.chunk_text text max_words =
  match split text with
  | [] => []
  | _ => [strip (join (py " ") (re_split_sentences text))]
  end.
Proof.
  intros Hn. unfold SentenceAware.chunk_text.
  rewrite loop_no_flush
    by (rewrite re_split_sentences_words; unfold word_count in Hn; cbn; lia).
  rewrite fold_glue by apply re_split_from_nonempty.
  cbn [app]. rewrite strip_sp.
  destruct (truthy (strip (join (py " ") (re_split_sentences text)))) eqn:Ht.
  - destruct (split text) eqn:Hs; [|reflexivity].
    rewrite <- re_split_sentences_words, <- words_of_chunks_join in Hs.
    apply truthy_strip in Hs. congruence.
  - apply truthy_strip in Ht.
    rewrite words_of_chunks_join, re_split_sentences_words in Ht. now rewrite Ht.
Qed.

Lemma sentence_aware_short_text_witness :
  word_count (py "A b.   C d.") < 300
  /\ SentenceAware.chunk_text (py "A b.   C d.") 300 =
     match split (py "A b.   C d.") with
     | [] => []
     | _ => [strip (join (py " ") (re_split_sentences (py "A b.   C d.")))]
     end.
Proof.
  split; [reflexivity|].
  apply (sentence_aware_short_text (py "A b.   C d.") 300). reflexivity.
Defined.

(* ===================================================================== *)
(** * The cost and the outcome of a search *)
(* ===================================================================== *)

Lemma chunks_of_length article :
  Z.of_nat (length (chunks_of article)) = chunk_count article.
Proof.
  destruct (fixed_window_count (content article) 300 ltac:(lia))
    as (chunks & Hc & _ & _ & Hl).
  unfold chunks_of, chunk_count. rewrite Hc, Hl. f_equal. lia.
Qed.

Lemma work_list_count articles :
  Z.of_nat (length (work_list articles)) = foldr Z.add 0 (map chunk_count articles).
Proof.
  rewrite work_list_length.
  induction articles as [|a rest IH]; [reflexivity|].
  cbn [map concat foldr]. rewrite length_app, Nat2Z.inj_add, IH, chunks_of_length.
  reflexivity.
Qed.

Lemma extraction_calls_articles articles :
  extraction_calls (work_list articles) = concat (map article_calls articles).
Proof.
  unfold work_list, article_calls, extraction_calls.
  induction articles as [|a rest IH]; [reflexivity|].
  cbn [flat_map map concat]. now rewrite map_app, IH.
Qed.

Lemma article_calls_length article :
  Z.of_nat (length (article_calls article)) = chunk_count article.
Proof.
  unfold article_calls. rewrite extraction_calls_length, length_map.
  apply chunks_of_length.
Qed.

Lemma article_calls_model article :
  Forall (fun c => fst c = py "gpt-4.1-mini") (article_calls article).
Proof.
  unfold article_calls, extraction_calls. apply Forall_map, Forall_forall.
  intros cm _. reflexivity.
Qed.

(** X7. The model calls of the end of the search handler, in both
    variants: for every article, in order, a block of calls of
    gpt-4.1-mini, one for each block of 300 words of its content (its word
    count divided by 300, rounded up; none for a content without a word);
    after the blocks exactly one call of gpt-4.1, the merge call, which is
    the last call; in all, the sum of the block sizes and one. *)
Theorem model_calls_of_a_search (w : World) (v : Variant) (articles : list Article)
    (s : St) :
  (exists events,
      calls (snd (extract_and_merge w v articles s))
      = calls s ++ concat (map article_calls articles)
        ++ [(py "gpt-4.1", merge_prompt v (join nl events))])
  /\ Forall (fun a => Z.of_nat (length (article_calls a)) = chunk_count a
                      /\ Forall (fun c => fst c = py "gpt-4.1-mini") (article_calls a))
            articles
  /\ merge_calls (concat (map article_calls articles)) = []
  /\ Z.of_nat (length (calls (snd (extract_and_merge w v articles s))))
     = Z.of_nat (length (calls s)) + foldr Z.add 0 (map chunk_count articles) + 1.
Proof.
  split; [|split; [|split]].
  - rewrite extract_and_merge_run. cbn zeta. cbn [snd calls].
    rewrite extraction_calls_articles. eexists. reflexivity.
  - apply Forall_forall. intros a _.
    split; [apply article_calls_length | apply article_calls_model].
  - rewrite <- extraction_calls_articles. apply merge_calls_extraction.
  - rewrite extract_and_merge_run. cbn zeta. cbn [snd calls].
    rewrite !length_app, extraction_calls_length. cbn [length].
    rewrite <- work_list_count. lia.
Qed.

(** How the search handler ends: normally, with the five keys written;
    stopped, on a blank query; or with an exception of [resolve_real_url],
    and then the session and the calls are the ones from before. *)
Lemma search_handler_cases w query s :
  match search_handler w query s with
  | (Done _, s') =>
      truthy (strip query) = true
      /\ exists tl arts,
           session s' = mkSession (Some tl) (Some arts) (Some []) (Some []) (Some [])
  | (Stopped, s') =>
      truthy (strip query) = false /\ session s' = session s /\ calls s' = calls s
      /\ visited s' = visited s
  | (Raised e, s') =>
      truthy (strip query) = true /\ session s' = session s /\ calls s' = calls s
      /\ exists entry,
           In entry (take 10 (search_google_news w query))
           /\ resolve_real_url w (entry_link entry) = Raise e
  end.
Proof.
  destruct (truthy (strip query)) eqn:Hq.
  - rewrite (search_handler_run w query s Hq). unfold bind.
    match goal with
    | |- context [fetch_articles w 0 ?es [] ?st] =>
        pose proof (fetch_articles_spec w es 0 [] st) as Hf;
        destruct (fetch_articles w 0 es [] st) as [[articles | | e] s1]
    end; [|contradiction|].
    + rewrite extract_and_merge_run. cbn zeta. split; [reflexivity|]. eauto.
    + destruct Hf as (He & Hs1 & Hc1 & _). cbn [session calls] in *. auto.
  - unfold search_handler. rewrite Hq.
    cbv beta iota zeta delta [bind show st_stop session ui calls visited]. auto.
Qed.

(** X8. A search commits all or nothing.  When the handler runs to its end
    the five session keys are present, and the translation, the highlights
    and the comparison of an earlier search are replaced by the empty
    string.  When it does not (a blank query, or an exception of
    [resolve_real_url] at any entry), the session is the one from before
    and no model call has been made. *)
Theorem search_all_or_nothing (w : World) (query : str) (s : St) :
  let out := search_handler w query s in
  (fst out = Done tt
   /\ has_all (session (snd out)) = true
   /\ translated_timeline (session (snd out)) = Some (py "")
   /\ highlights (session (snd out)) = Some (py "")
   /\ comparison (session (snd out)) = Some (py ""))
  \/ (fst out <> Done tt
      /\ session (snd out) = session s
      /\ calls (snd out) = calls s).
Proof.
  cbn zeta. pose proof (search_handler_cases w query s) as H.
  destruct (search_handler w query s) as [[[] | | e] s']; cbn [fst snd].
  - left. destruct H as (_ & tl & arts & ->). repeat split.
  - right. destruct H as (_ & H1 & H2 & _). repeat split; [discriminate | assumption..].
  - right. destruct H as (_ & H1 & H2 & _). repeat split; [discriminate | assumption..].
Qed.

(** X9. A search with a query that is empty or all whitespace stops the
    run after the error message: nothing is fetched, no model is called,
    the session is untouched, and nothing below the search is rendered,
    whatever the session holds. *)
Theorem blank_query_stops (w : World) (inp : Inputs) (s : St) :
  search_btn inp = true -> truthy (strip (query_input inp)) = false ->
  script w inp s =
  (Stopped,
   mkSt (session s)
     (ui s ++ [ UITitle ([128240%N] ++ py " Multi-Article Incident Timeline Generator");
                UIWrite (py "Enter a topic to fetch news, extract text, and build a chronological event timeline.");
                UIError (py "Please enter a search term.") ])
     (calls s) (visited s)).
Proof.
  intros Hb Hq. destruct s as [ss u c v]. cbn [session ui calls visited] in *.
  unfold script, search_handler. rewrite Hb, Hq.
  cbv beta iota zeta delta [bind show ret get_session st_stop session ui calls visited].
  rewrite <- !app_assoc. reflexivity.
Qed.

Lemma blank_query_stops_witness :
  search_btn (search_inputs "   ") = true
  /\ truthy (strip (query_input (search_inputs "   "))) = false
  /\ script twelve_world (search_inputs "   ") (mkSt stored_session [] [] []) =
     (Stopped,
      mkSt (session (mkSt stored_session [] [] []))
        (ui (mkSt stored_session [] [] [])
         ++ [ UITitle ([128240%N] ++ py " Multi-Article Incident Timeline Generator");
              UIWrite (py "Enter a topic to fetch news, extract text, and build a chronological event timeline.");
              UIError (py "Please enter a search term.") ])
        (calls (mkSt stored_session [] [] [])) (visited (mkSt stored_session [] [] []))).
Proof.
  split; [reflexivity|]. split; [reflexivity|].
  exact (blank_query_stops twelve_world (search_inputs "   ")
           (mkSt stored_session [] [] []) eq_refl eq_refl).
Defined.

(* ===================================================================== *)
(** * The analysis section of the page *)
(* ===================================================================== *)

(** X10. Without a stored timeline the analysis section is closed: a run
    without a search stops after the information message, whichever of the
    Translate, Highlights and Compare buttons is pressed; no model is
    called and the session is untouched. *)
Theorem analysis_needs_timeline (w : World) (inp : Inputs) (s : St) :
  search_btn inp = false -> timeline (session s) = None ->
  script w inp s =
  (Stopped,
   mkSt (session s)
     (ui s ++ [ UITitle ([128240%N] ++ py " Multi-Article Incident Timeline Generator");
                UIWrite (py "Enter a topic to fetch news, extract text, and build a chronological event timeline.");
                UISubheader ([10024%N] ++ py " Additional Analysis Options");
                UIInfo (py "Run a search first to enable Translate / Highlights / Compare.") ])
     (calls s) (visited s)).
Proof.
  intros Hb Ht. destruct s as [ss u c v]. cbn [session ui calls visited] in *.
  unfold script. rewrite Hb.
  cbv beta iota zeta delta [bind show ret get_session st_stop session ui calls visited].
  rewrite Ht. rewrite <- !app_assoc. reflexivity.
Qed.

Lemma analysis_needs_timeline_witness :
  search_btn (inputs_of Compare) = false
  /\ timeline (session fresh) = None
  /\ script quota_world (inputs_of Compare) fresh =
     (Stopped,
      mkSt (session fresh)
        (ui fresh
         ++ [ UITitle ([128240%N] ++ py " Multi-Article Incident Timeline Generator");
              UIWrite (py "Enter a topic to fetch news, extract text, and build a chronological event timeline.");
              UISubheader ([10024%N] ++ py " Additional Analysis Options");
              UIInfo (py "Run a search first to enable Translate / Highlights / Compare.") ])
        (calls fresh) (visited fresh)).
Proof.
  split; [reflexivity|]. split; [reflexivity|].
  exact (analysis_needs_timeline quota_world (inputs_of Compare) fresh eq_refl eq_refl).
Defined.

(** X11. A run in which no button is pressed is free: it makes no model
    call, starts no browser session and leaves the session as it is. *)
Theorem idle_run_is_free (w : World) (inp : Inputs) (s : St) :
  search_btn inp = false -> translate_btn inp = false ->
  highlights_btn inp = false -> compare_btn inp = false ->
  session (snd (script w inp s)) = session s
  /\ calls (snd (script w inp s)) = calls s
  /\ visited (snd (script w inp s)) = visited s.
Proof.
  intros Hs Ht Hh Hc. destruct s as [[[tl|] a tr h cmp] u c v]; unfold script;
    rewrite Hs, Ht, Hh, Hc; unfold session_item;
    repeat (cbv beta iota zeta delta
              [bind show ret get_session st_stop session ui calls visited show_artifact
               timeline translated_timeline highlights comparison fst snd];
            match goal with
            | |- context [get_truthy ?x] => destruct (get_truthy x)
            end);
    cbv beta iota zeta delta
      [bind show ret get_session st_stop session ui calls visited show_artifact
       timeline translated_timeline highlights comparison fst snd];
    auto.
Qed.

Lemma idle_run_is_free_witness :
  search_btn idle_inputs = false /\ translate_btn idle_inputs = false
  /\ highlights_btn idle_inputs = false /\ compare_btn idle_inputs = false
  /\ session (snd (script quota_world idle_inputs (mkSt stored_session [] [] [])))
     = session (mkSt stored_session [] [] [])
  /\ calls (snd (script quota_world idle_inputs (mkSt stored_session [] [] [])))
     = calls (mkSt stored_session [] [] [])
  /\ visited (snd (script quota_world idle_inputs (mkSt stored_session [] [] [])))
     = visited (mkSt stored_session [] [] []).
Proof.
  do 4 (split; [reflexivity|]).
  exact (idle_run_is_free quota_world idle_inputs (mkSt stored_session [] [] [])
           eq_refl eq_refl eq_refl eq_refl).
Defined.

(** A run of the script for a derived operation, from a stored timeline. *)
Lemma derived_op_run (w : World) (op : DerivedOp) (ss : Session)
    (tl : str) (arts : list Article) :
  timeline ss = Some tl ->
  (op = Compare -> articles_data ss = Some arts) ->
  let c := derived_call tl arts op in
  let out := script w (inputs_of op) (mkSt ss [] [] []) in
  fst out = Done tt
  /\ calls (snd out) = [c]
  /\ visited (snd out) = []
  /\ artifact op (session (snd out))
     = Some (answer (responses_create w 0 (fst c) (snd c))).
Proof.
  intros Ht Ha. cbn zeta.
  destruct ss as [t a tr h cmp]. cbn [timeline articles_data] in *. subst t.
  destruct op as [lang | |]; [| |rewrite (Ha eq_refl)];
    unfold script, inputs_of;
    cbn [search_btn translate_btn highlights_btn compare_btn target_lang_input];
    unfold translate_handler, highlights_handler, compare_handler,
      translate_timeline, extract_key_highlights, compare_sources, session_item;
    repeat (cbv beta iota zeta delta
              [bind show ret get_session set_session session ui calls visited timeline
               articles_data translated_timeline highlights comparison show_artifact
               set_translated_timeline set_highlights set_comparison fst snd];
            first [ rewrite ask_gpt_run
                  | match goal with
                    | |- context [get_truthy ?x] => destruct (get_truthy x)
                    end ]);
    cbv beta iota zeta delta
      [session ui calls visited timeline articles_data translated_timeline
       highlights comparison fst snd artifact derived_call length app];
    auto.
Qed.

(** X12. A derived operation on a stored timeline makes exactly one model
    call, built from what is stored (the timeline, or the articles for the
    comparison), starts no browser session, and stores under its key what
    [ask_gpt] returned: the completion, or the marked reason when the call
    failed, which then replaces the artifact of an earlier success. *)
Theorem derived_op_one_call (w : World) (op : DerivedOp) (ss : Session)
    (tl : str) (arts : list Article) :
  timeline ss = Some tl ->
  (op = Compare -> articles_data ss = Some arts) ->
  let c := derived_call tl arts op in
  let out := script w (inputs_of op) (mkSt ss [] [] []) in
  fst out = Done tt
  /\ calls (snd out) = [c]
  /\ visited (snd out) = []
  /\ artifact op (session (snd out))
     = Some (answer (responses_create w 0 (fst c) (snd c))).
Proof. apply derived_op_run. Qed.

Lemma derived_op_one_call_witness :
  timeline stored_session = Some (py "- [Monday] Fire at the depot")
  /\ (Compare = Compare -> articles_data stored_session = Some [])
  /\ let c := derived_call (py "- [Monday] Fire at the depot") [] Compare in
     let out := script quota_world (inputs_of Compare) (mkSt stored_session [] [] []) in
     fst out = Done tt
     /\ calls (snd out) = [c]
     /\ visited (snd out) = []
     /\ artifact Compare (session (snd out))
        = Some (answer (responses_create quota_world 0 (fst c) (snd c))).
Proof.
  split; [reflexivity|]. split; [reflexivity|].
  exact (derived_op_one_call quota_world Compare stored_session
           (py "- [Monday] Fire at the depot") [] eq_refl (fun _ => eq_refl)).
Defined.

Lemma run_ops_same_stored ops : forall ss, same_stored ss (run_ops ops ss).
Proof.
  unfold run_ops.
  induction ops as [|[w op] rest IH]; intros ss; cbn [fold_left fst snd]; [now split|].
  destruct (rerun_same_stored w (inputs_of op) ss ltac:(now destruct op)) as [H1 H2].
  destruct (IH (rerun w (inputs_of op) ss)) as [H3 H4].
  split; congruence.
Qed.

(** X19. Derived operations never feed on each other: after any sequence
    of translations, highlights and comparisons, in any worlds and whatever
    the model returned, a derived operation sends the very call it would
    have sent right after the search, built from the stored timeline or
    the stored articles; so repeating a translation repeats the same
    request. *)
Theorem derived_call_is_stable (ops : list (World * DerivedOp)) (w : World)
    (op : DerivedOp) (ss : Session) (tl : str) (arts : list Article) :
  timeline ss = Some tl ->
  (op = Compare -> articles_data ss = Some arts) ->
  calls (snd (script w (inputs_of op) (mkSt (run_ops ops ss) [] [] [])))
  = [derived_call tl arts op]
  /\ calls (snd (script w (inputs_of op) (mkSt ss [] [] [])))
     = [derived_call tl arts op].
Proof.
  intros Ht Ha. destruct (run_ops_same_stored ops ss) as [H1 H2]. split.
  - apply (derived_op_run w op (run_ops ops ss) tl arts); [congruence|].
    intros Hop. rewrite H2. now apply Ha.
  - now apply (derived_op_run w op ss tl arts).
Qed.

Lemma derived_call_is_stable_witness :
  timeline stored_session = Some (py "- [Monday] Fire at the depot")
  /\ (Compare = Compare -> articles_data stored_session = Some [])
  /\ calls (snd (script quota_world (inputs_of Compare)
                  (mkSt (run_ops [(twelve_world, Translate (py "Tamil"));
                                  (quota_world, Highlights)] stored_session)
                     [] [] [])))
     = [derived_call (py "- [Monday] Fire at the depot") [] Compare]
  /\ calls (snd (script quota_world (inputs_of Compare) (mkSt stored_session [] [] [])))
     = [derived_call (py "- [Monday] Fire at the depot") [] Compare].
Proof.
  split; [reflexivity|]. split; [reflexivity|].
  exact (derived_call_is_stable
           [(twelve_world, Translate (py "Tamil")); (quota_world, Highlights)]
           quota_world Compare stored_session
           (py "- [Monday] Fire at the depot") [] eq_refl (fun _ => eq_refl)).
Defined.

Lemma bind_done {A B} (m : Run A) (k : A -> Run B) s b s' :
  bind m k s = (Done b, s') ->
  exists a s1, m s = (Done a, s1) /\ k a s1 = (Done b, s').
Proof.
  unfold bind. destruct (m s) as [[a | | e] s1]; intros H; try discriminate.
  now exists a, s1.
Qed.

(** X13. Whenever a run of the script reaches its end, the last element of
    the page is the download button, and the file it offers is the
    timeline that the session holds at the end of that run. *)
Theorem download_is_stored_timeline (w : World) (inp : Inputs) (s : St) :
  fst (script w inp s) = Done tt ->
  exists page tl,
    timeline (session (snd (script w inp s))) = Some tl
    /\ ui (snd (script w inp s))
       = page ++ [UIDownload (py "Download Timeline") tl (py "timeline.txt")].
Proof.
  destruct (script w inp s) as [o s'] eqn:Hrun. cbn [fst snd]. intros ->.
  unfold script in Hrun.
  do 15 (apply bind_done in Hrun as (? & ? & _ & Hrun)).
  match type of Hrun with
  | _ ?st = _ =>
      unfold session_item, bind, get_session in Hrun;
      destruct (timeline (session st)) as [tl|] eqn:Ht; [|discriminate];
      cbn [ret show] in Hrun; injection Hrun as <-;
      exists (ui st), tl; cbn [session ui]; split; [exact Ht | reflexivity]
  end.
Qed.

Lemma download_is_stored_timeline_witness :
  fst (script paywalled_world (search_inputs "depot fire") fresh) = Done tt
  /\ exists page tl,
       timeline (session (snd (script paywalled_world (search_inputs "depot fire") fresh)))
       = Some tl
       /\ ui (snd (script paywalled_world (search_inputs "depot fire") fresh))
          = page ++ [UIDownload (py "Download Timeline") tl (py "timeline.txt")].
Proof.
  assert (H : fst (script paywalled_world (search_inputs "depot fire") fresh) = Done tt)
    by (vm_compute; reflexivity).
  exact (conj H (download_is_stored_timeline paywalled_world
                   (search_inputs "depot fire") fresh H)).
Defined.

(* ===================================================================== *)
(** * The session over many runs *)
(* ===================================================================== *)

Section Triples.

Context (X : PyExc -> Prop) (I : Session -> Prop).

Lemma striple_bind {A B} P (m : Run A) (k : A -> Run B) Q1 Q :
  striple X P m Q1 I -> (forall a, striple X (Q1 a) (k a) Q I) ->
  striple X P (bind m k) Q I.
Proof.
  intros Hm Hk s Hs. unfold bind. specialize (Hm s Hs).
  destruct (m s) as [[a | | e] s1]; [|exact Hm..].
  apply (Hk a s1 Hm).
Qed.

Lemma striple_weaken {A} (P P' : Session -> Prop) (m : Run A)
    (Q Q' : A -> Session -> Prop) :
  striple X P' m Q' I -> (forall ss, P ss -> P' ss) -> (forall a ss, Q' a ss -> Q a ss) ->
  striple X P m Q I.
Proof.
  intros Hm HP HQ s Hs. specialize (Hm s (HP _ Hs)).
  destruct (m s) as [[a | | e] s1]; [apply HQ|..]; exact Hm.
Qed.

Lemma striple_ret {A} P (a : A) : striple X P (ret a) (fun _ => P) I.
Proof. intros s Hs. exact Hs. Qed.

Lemma striple_show P e : striple X P (show e) (fun _ => P) I.
Proof. intros s Hs. exact Hs. Qed.

Lemma striple_stop {A} (Q : A -> Session -> Prop) : striple X I st_stop Q I.
Proof. intros s Hs. exact Hs. Qed.

Lemma striple_get_session P :
  striple X P get_session (fun a ss => a = ss /\ P ss) I.
Proof. intros s Hs. now split. Qed.

(** A key that is present is read without a [KeyError]. *)
Lemma striple_item {A} P key (field : Session -> option A) :
  (forall ss, P ss -> field ss <> None) ->
  striple X P (session_item key field) (fun _ => P) I.
Proof.
  intros Hf s Hs. unfold session_item, bind, get_session.
  specialize (Hf _ Hs). destruct (field (session s)); [exact Hs | congruence].
Qed.

Lemma striple_set_session P Q f :
  (forall ss, P ss -> Q (f ss)) -> striple X P (set_session f) (fun _ => Q) I.
Proof. intros Hf s Hs. now apply Hf. Qed.

(** [ask_gpt] raises nothing and writes no key. *)
Lemma striple_ask_gpt P w prompt model :
  striple X P (ask_gpt w prompt model) (fun _ => P) I.
Proof. intros s Hs. rewrite ask_gpt_run. exact Hs. Qed.

Lemma striple_show_artifact P heading field :
  striple X P (show_artifact heading field) (fun _ => P) I.
Proof.
  intros s Hs. unfold show_artifact, bind, get_session.
  destruct (get_truthy (field (session s))); [|exact Hs].
  destruct heading; exact Hs.
Qed.

End Triples.

Lemma has_all_keys ss :
  has_all ss = true ->
  timeline ss <> None /\ articles_data ss <> None /\ translated_timeline ss <> None
  /\ highlights ss <> None /\ comparison ss <> None.
Proof.
  destruct ss as [[?|] [?|] [?|] [?|] [?|]]; cbn; intros; try discriminate;
    repeat split; discriminate.
Qed.

Lemma has_all_set_translated v ss :
  has_all ss = true -> has_all (set_translated_timeline v ss) = true.
Proof. destruct ss as [[?|] [?|] [?|] [?|] [?|]]; cbn; congruence. Qed.

Lemma has_all_set_highlights v ss :
  has_all ss = true -> has_all (set_highlights v ss) = true.
Proof. destruct ss as [[?|] [?|] [?|] [?|] [?|]]; cbn; congruence. Qed.

Lemma has_all_set_comparison v ss :
  has_all ss = true -> has_all (set_comparison v ss) = true.
Proof. destruct ss as [[?|] [?|] [?|] [?|] [?|]]; cbn; congruence. Qed.

(** One run of the script, for an invariant [I] of the session that holds
    when the five keys are present and that, with a timeline, means that
    they are: the run keeps [I], ends normally only with the five keys
    present, and raises only what its search handler raised. *)
Lemma script_triple w inp (I : Session -> Prop) :
  (forall ss, has_all ss = true -> I ss) ->
  (forall ss, I ss -> timeline ss <> None -> has_all ss = true) ->
  striple (raised_by_search w inp) I (script w inp) (fun _ ss => has_all ss = true) I.
Proof.
  intros Hall Htl. set (X := raised_by_search w inp).
  set (K := fun ss => has_all ss = true).
  assert (Hstep : forall A (m : Run A) B (k : A -> Run B),
             striple X K m (fun _ => K) I -> (forall a, striple X K (k a) (fun _ => K) I) ->
             striple X K (bind m k) (fun _ => K) I).
  { intros. eapply striple_bind; eauto. }
  unfold script.
  eapply striple_bind; [apply striple_show | intros ?; cbn beta].
  eapply striple_bind; [apply striple_show | intros ?; cbn beta].
  eapply striple_bind with (Q1 := fun _ => I).
  { destruct (search_btn inp) eqn:Hb; [|apply striple_ret].
    intros s Hs. pose proof (search_handler_cases w (query_input inp) s) as Hc.
    destruct (search_handler w (query_input inp) s) as [[[] | | e] s1] eqn:Hrun.
    - destruct Hc as (_ & tl & arts & ->). now apply Hall.
    - destruct Hc as (_ & -> & _). exact Hs.
    - destruct Hc as (_ & -> & _). split; [exact Hs|]. split; [exact Hb|].
      exists s. now rewrite Hrun. }
  intros ?; cbn beta. eapply striple_bind; [apply striple_show | intros ?; cbn beta].
  eapply striple_bind; [apply striple_get_session | intros ss].
  eapply striple_bind with (Q1 := fun _ => K).
  { destruct (timeline ss) eqn:Ht.
    - eapply striple_weaken; [apply striple_ret| |]; cbn beta.
      + intros ss' Hss'. exact Hss'.
      + intros _ ss' [-> Hss']. apply Htl; [exact Hss' | congruence].
    - eapply striple_bind; [apply striple_show | intros ?; cbn beta].
      eapply striple_weaken; [apply striple_stop | |]; cbn beta.
      + now intros ss' [_ Hss'].
      + intros ? ss' Hf. exact Hf. }
  assert (Hshow : forall e, striple X K (show e) (fun _ => K) I)
    by (intros; apply striple_show).
  assert (Hart : forall h f, striple X K (show_artifact h f) (fun _ => K) I)
    by (intros; apply striple_show_artifact).
  assert (Hret : striple X K (ret tt) (fun _ => K) I) by apply striple_ret.
  assert (Hgpt : forall p m, striple X K (ask_gpt w p m) (fun _ => K) I)
    by (intros; apply striple_ask_gpt).
  assert (Htline : striple X K (session_item "timeline" timeline) (fun _ => K) I).
  { apply striple_item. intros ss' Hss'. now apply has_all_keys in Hss'. }
  assert (Harts : striple X K (session_item "articles_data" articles_data)
                    (fun _ => K) I).
  { apply striple_item. intros ss' Hss'. now apply has_all_keys in Hss'. }
  intros ?; cbn beta. apply Hstep; [apply Hshow | intros _].
  apply Hstep.
  { destruct (translate_btn inp); [|exact Hret]. unfold translate_handler.
    apply Hstep; [apply Hshow | intros _].
    apply Hstep; [exact Htline | intros tl].
    apply Hstep; [apply Hgpt | intros r].
    apply Hstep; [|intros _; apply Hshow].
    apply striple_set_session. intros ss'. apply has_all_set_translated. }
  intros _. apply Hstep; [apply Hart | intros _].
  apply Hstep; [apply Hshow | intros _].
  apply Hstep.
  { destruct (highlights_btn inp); [|exact Hret]. unfold highlights_handler.
    apply Hstep; [apply Hshow | intros _].
    apply Hstep; [exact Htline | intros tl].
    apply Hstep; [apply Hgpt | intros r].
    apply Hstep; [|intros _; apply Hshow].
    apply striple_set_session. intros ss'. apply has_all_set_highlights. }
  intros _. apply Hstep; [apply Hart | intros _].
  apply Hstep; [apply Hshow | intros _].
  apply Hstep.
  { destruct (compare_btn inp); [|exact Hret]. unfold compare_handler.
    apply Hstep; [apply Hshow | intros _].
    apply Hstep; [exact Harts | intros arts].
    apply Hstep; [apply Hgpt | intros r].
    apply Hstep; [|intros _; apply Hshow].
    apply striple_set_session. intros ss'. apply has_all_set_comparison. }
  intros _. apply Hstep; [apply Hart | intros _].
  apply Hstep; [exact Htline | intros tl]. apply Hshow.
Qed.

Lemma rerun_invariant w inp (I : Session -> Prop) ss :
  (forall ss, has_all ss = true -> I ss) ->
  (forall ss, I ss -> timeline ss <> None -> has_all ss = true) ->
  I ss -> I (rerun w inp ss).
Proof.
  intros Hall Htl Hss. unfold rerun.
  pose proof (script_triple w inp I Hall Htl (mkSt ss [] [] []) Hss) as Ht.
  destruct (script w inp (mkSt ss [] [] [])) as [[[] | | e] s']; cbn [snd].
  - now apply Hall.
  - exact Ht.
  - apply Ht.
Qed.

Lemma coherent_timeline ss : coherent ss -> timeline ss <> None -> has_all ss = true.
Proof. intros [-> | H] Ht; [now cbn in Ht | exact H]. Qed.

Lemma rerun_coherent w inp ss : coherent ss -> coherent (rerun w inp ss).
Proof.
  apply rerun_invariant; [intros ss' H; now right | apply coherent_timeline].
Qed.

Lemma rerun_has_all w inp ss : has_all ss = true -> has_all (rerun w inp ss) = true.
Proof. apply (rerun_invariant w inp (fun ss => has_all ss = true)); auto. Qed.

Lemma sessions_coherent runs : coherent (sessions runs).
Proof.
  unfold sessions. assert (H : coherent empty_session) by now left.
  revert H. generalize empty_session.
  induction runs as [|[w inp] rest IH]; intros ss Hss; cbn [fold_left fst snd];
    [exact Hss|].
  apply IH. now apply rerun_coherent.
Qed.

(** X14. After any sequence of runs of the script from an empty session,
    with any inputs, in any worlds and however each run ended, the session
    has all of the five keys or none of them; and once it has them, it has
    them after every further run. *)
Theorem session_keys_all_or_none (runs more : list (World * Inputs)) :
  coherent (sessions runs)
  /\ (has_all (sessions runs) = true -> has_all (sessions (runs ++ more)) = true).
Proof.
  split; [apply sessions_coherent|].
  unfold sessions. rewrite fold_left_app.
  generalize (fold_left (fun ss r => rerun (fst r) (snd r) ss) runs empty_session).
  induction more as [|[w inp] rest IH]; intros ss Hss; cbn [fold_left fst snd];
    [exact Hss|].
  apply IH. now apply rerun_has_all.
Qed.

(** X15. In a run that starts from a session left by earlier runs, the
    part of the script below the search never raises: no lookup of a
    session key raises [KeyError], and no failure of the model ends the
    run.  An exception that ends the run is one that left the search
    handler of that run. *)
Theorem run_raises_only_in_search (runs : list (World * Inputs)) (w : World)
    (inp : Inputs) (e : PyExc) :
  fst (script w inp (mkSt (sessions runs) [] [] [])) = Raised e ->
  raised_by_search w inp e.
Proof.
  intros He.
  pose proof (script_triple w inp coherent ltac:(intros ss' H; now right)
                coherent_timeline (mkSt (sessions runs) [] [] [])
                (sessions_coherent runs)) as Ht.
  destruct (script w inp (mkSt (sessions runs) [] [] [])) as [[[] | | e'] s'];
    cbn [fst] in He; try discriminate.
  injection He as ->. apply Ht.
Qed.

Lemma run_raises_only_in_search_witness :
  fst (script no_chrome_world (search_inputs "depot fire")
         (mkSt (sessions [(paywalled_world, search_inputs "depot fire")]) [] [] []))
  = Raised WebDriverException
  /\ raised_by_search no_chrome_world (search_inputs "depot fire") WebDriverException.
Proof.
  assert (H : fst (script no_chrome_world (search_inputs "depot fire")
                     (mkSt (sessions [(paywalled_world, search_inputs "depot fire")])
                        [] [] []))
              = Raised WebDriverException) by (vm_compute; reflexivity).
  exact (conj H (run_raises_only_in_search
                   [(paywalled_world, search_inputs "depot fire")] no_chrome_world
                   (search_inputs "depot fire") WebDriverException H)).
Defined.

(* ===================================================================== *)
(** * What the prompts read of an article *)
(* ===================================================================== *)

Lemma compare_block_take a :
  compare_block a =
  nl ++ unlines [ py "### Source: " ++ publisher a; py "Title: " ++ title a;
                  py "Content:"; take 1500 (content a) ].
Proof. unfold compare_block. destruct (content a); reflexivity. Qed.

(** X16. The comparison reads of every article its publisher, its title
    and the first 1500 characters of its content, and nothing else: two
    lists of articles that agree on these, article by article, give the
    same prompt. *)
Theorem compare_reads_first_1500 (articles articles' : list Article) :
  Forall2 (fun a a' => publisher a = publisher a' /\ title a = title a'
                       /\ take 1500 (content a) = take 1500 (content a'))
          articles articles' ->
  compare_prompt articles = compare_prompt articles'.
Proof.
  intros H. unfold compare_prompt. cbn zeta.
  assert (Hf : forall acc,
             fold_left (fun acc a => acc ++ compare_block a) articles acc
             = fold_left (fun acc a => acc ++ compare_block a) articles' acc).
  { induction H as [|a a' l l' (Hp & Ht & Hc) _ IH]; intros acc; [reflexivity|].
    cbn [fold_left]. rewrite IH. do 2 f_equal.
    rewrite !compare_block_take, Hp, Ht, Hc. reflexivity. }
  now rewrite Hf.
Qed.

Lemma compare_reads_first_1500_witness :
  Forall2 (fun a a' => publisher a = publisher a' /\ title a = title a'
                       /\ take 1500 (content a) = take 1500 (content a'))
          [depot_article (List.repeat 97%N 1500 ++ py " and the roof fell in.")]
          [depot_article (List.repeat 97%N 1500 ++ py " and nobody was hurt.")]
  /\ compare_prompt
       [depot_article (List.repeat 97%N 1500 ++ py " and the roof fell in.")]
     = compare_prompt
         [depot_article (List.repeat 97%N 1500 ++ py " and nobody was hurt.")].
Proof.
  assert (H : Forall2
                (fun a a' => publisher a = publisher a' /\ title a = title a'
                             /\ take 1500 (content a) = take 1500 (content a'))
                [depot_article (List.repeat 97%N 1500 ++ py " and the roof fell in.")]
                [depot_article (List.repeat 97%N 1500 ++ py " and nobody was hurt.")]).
  { constructor; [|constructor]. split; [reflexivity|]. split; [reflexivity|].
    vm_compute. reflexivity. }
  exact (conj H (compare_reads_first_1500 _ _ H)).
Defined.

(** X17. [get_credibility_score] of [src/app.py] never raises: it makes one
    call of gpt-4.1-mini and returns the completion, or, when the call
    fails, the fixed JSON text with a score of 50, in which nothing of the
    failure is left. *)
Theorem credibility_score_defaults (w : World) (article : Article) (s : St) :
  get_credibility_score w article s =
  (Done match responses_create w (length (calls s)) (py "gpt-4.1-mini")
                (credibility_prompt article) with
        | Completion output_text => output_text
        | Failure _ _ => default_credibility
        end,
   mkSt (session s) (ui s)
     (calls s ++ [(py "gpt-4.1-mini", credibility_prompt article)]) (visited s)).
Proof.
  unfold get_credibility_score, try_except, client_responses_create. cbn zeta.
  destruct (responses_create w (length (calls s)) _ _); reflexivity.
Qed.

(* ===================================================================== *)
(** * The archived search handler *)
(* ===================================================================== *)




